(** * LazyProxy client transports

    A shallow embedding of the three client transports of
    [client/module/Agent/service]: [HTTP.py] (streaming request),
    [MQTT.py] (publish/subscribe) and [WebSocket.py] (full-duplex socket),
    and the properties of their [connect] / [send] / [close] methods.

    Conventions of the embedding.
    - A method takes the object ([self]) and returns a [result]: what the
      call did ([Return], [Raise], or still [Waiting]), the object after
      the call, and the calls it made on the underlying library, in order.
    - Everything a method learns from outside (the clock, the listener
      thread, the peer) is an explicit argument, the method's world.
    - The wire encoding ([json.dumps] / [json.loads]) is outside the
      embedding: payloads are the decoded dictionaries; a frame or line
      that does not decode is an event of its own. *)

From stdpp Require Import gmap strings list pretty.
From Stdlib Require Import Ascii.

(** ** Messages, exceptions, results *)

(** The values found in the dictionaries exchanged with the server. *)
Inductive value :=
| VNone
| VBool (b : bool)
| VInt (n : Z)
| VStr (s : string).

#[global] Instance value_eq_dec : EqDecision value.
Proof. solve_decision. Defined.

(** A message is a Python [dict] with string keys. *)
Abbreviation Message := (gmap string value).

(** The exceptions the three classes raise themselves, and the ones of the
    libraries ([paho], [websockets], [httpx], [json]) they let through. *)
Inductive exn :=
| ConnectionError (msg : string)
| TimeoutError (msg : string)
| TypeError (msg : string)
| ValueError (msg : string)
| LibraryError (name : string).

(** What a method returns: [None], one dictionary, or a list of them. *)
Inductive retval :=
| RNone
| One (m : Message)
| Many (l : list Message).

(** How a call ends.  [Waiting] is a call that has neither returned nor
    raised in the world it was given. *)
Inductive outcome :=
| Return (v : retval)
| Raise (e : exn)
| Waiting.

Record result (C S : Type) := Result {
  out : outcome;
  post : S;
  calls : list C
}.
Arguments Result {C S} _ _ _.
Arguments out {C S} _.
Arguments post {C S} _.
Arguments calls {C S} _.

(** The messages a caller holds once the call has ended. *)
Definition delivered (o : outcome) : list Message :=
  match o with
  | Return (One m) => [m]
  | Return (Many l) => l
  | Return RNone | Raise _ | Waiting => []
  end.

Definition not_connected : exn :=
  ConnectionError "未连接，请先调用 connect()".

(** ** MQTT.py: publish/subscribe *)

Module MQTT.

(** The [paho.mqtt.client.Client] handle. *)
Record Client := { of_client_id : option string }.

(** Calls on the paho client. *)
Inductive call :=
| NewClient (client_id : option string)
| SetOnMessage
| Connect (broker : string) (port : Z)
| Subscribe (topic : string)
| LoopStart
| Publish (topic : string) (payload : Message)
| LoopStop
| Disconnect.

Record t := {
  broker : string;
  port : Z;
  client_id : option string;
  request_topic : string;
  response_topic : string;
  callback : option (Message → bool);
  timeout : Z;
  client : option Client;
  messages : list Message
}.

Definition set_client (self : t) (c : option Client) : t :=
  {| broker := broker self; port := port self; client_id := client_id self;
     request_topic := request_topic self;
     response_topic := response_topic self;
     callback := callback self; timeout := timeout self;
     client := c; messages := messages self |}.

Definition set_messages (self : t) (ms : list Message) : t :=
  {| broker := broker self; port := port self; client_id := client_id self;
     request_topic := request_topic self;
     response_topic := response_topic self;
     callback := callback self; timeout := timeout self;
     client := client self; messages := ms |}.

(** [__init__], with the defaults of the signature left to the caller. *)
Definition init (broker : string) (port : Z) (client_id : option string)
    (request_topic response_topic : string)
    (callback : option (Message → bool)) (timeout : Z) : t :=
  {| broker := broker; port := port; client_id := client_id;
     request_topic := request_topic; response_topic := response_topic;
     callback := callback; timeout := timeout;
     client := None; messages := [] |}.

(** [_on_message]: the listener thread appends the decoded payload,
    under the lock. *)
Definition _on_message (self : t) (data : Message) : t :=
  set_messages self (messages self ++ [data]).

(** Where [connect] can fail: in [mqtt.Client(...)], in
    [client.connect(broker, port)], in [client.subscribe(...)] or in
    [client.loop_start()], each with the exception raised there. *)
Inductive failure :=
| AtClient (e : exn)
| AtConnect (e : exn)
| AtSubscribe (e : exn)
| AtLoopStart (e : exn).

Definition raised (f : failure) : exn :=
  match f with
  | AtClient e | AtConnect e | AtSubscribe e | AtLoopStart e => e
  end.

(** [connect].  An exception of the library goes through; [self.client]
    is assigned as soon as the client object is built, so only a failure
    of [mqtt.Client(...)] leaves the object as it was. *)
Definition connect (self : t) (f : option failure) : result call t :=
  let c := {| of_client_id := client_id self |} in
  let assigned := set_client self (Some c) in
  let built := [NewClient (client_id self); SetOnMessage] in
  let connected := built ++ [Connect (broker self) (port self)] in
  let subscribed := connected ++ [Subscribe (response_topic self)] in
  match f with
  | None => Result (Return RNone) assigned (subscribed ++ [LoopStart])
  | Some (AtClient e) => Result (Raise e) self [NewClient (client_id self)]
  | Some (AtConnect e) => Result (Raise e) assigned connected
  | Some (AtSubscribe e) => Result (Raise e) assigned subscribed
  | Some (AtLoopStart e) =>
      Result (Raise e) assigned (subscribed ++ [LoopStart])
  end.

(** One turn of a polling loop, as the world sees it: what the listener
    appended since the previous turn, and what [time.time()] reads if
    the turn gets to it.  Clock readings and [timeout] are in one unit. *)
Record tick := { arrivals : list Message; now : Z }.

(** [publish_error]: the text of the [ValueError] with which
    [client.publish] refuses the request (an empty topic, a topic with a
    wildcard, a payload too large), if it does.  [start]: what
    [time.time()] reads before the loop. *)
Record world := {
  publish_error : option string;
  start : Z;
  ticks : list tick
}.

Definition deliver (self : t) (ms : list Message) : t :=
  foldl _on_message self ms.

Definition timed_out (self : t) (start : Z) (tk : tick) : bool :=
  (now tk - start >? timeout self)%Z.

Definition timeout_error : exn := TimeoutError "等待MQTT响应超时".

(** The loop of lines 69-75 ([callback is None]). *)
Fixpoint poll_single (self : t) (start : Z) (ticks : list tick)
    : outcome * t :=
  match ticks with
  | [] => (Waiting, self)
  | tk :: ticks =>
      let self := deliver self (arrivals tk) in
      match messages self with
      | m :: ms => (Return (One m), set_messages self ms)
      | [] =>
          if timed_out self start tk then (Raise timeout_error, self)
          else poll_single self start ticks
      end
  end.

(** The loop of lines 79-88, [results] being its local list. *)
Fixpoint poll_stream (self : t) (cb : Message → bool) (start : Z)
    (results : list Message) (ticks : list tick) : outcome * t :=
  match ticks with
  | [] => (Waiting, self)
  | tk :: ticks =>
      let self := deliver self (arrivals tk) in
      match messages self with
      | m :: ms =>
          let self := set_messages self ms in
          let results := results ++ [m] in
          if cb m then (Return (Many results), self)
          else if timed_out self start tk then (Raise timeout_error, self)
          else poll_stream self cb start results ticks
      | [] =>
          if timed_out self start tk then (Raise timeout_error, self)
          else poll_stream self cb start results ticks
      end
  end.

(** [send]. *)
Definition send (self : t) (data : Message) (w : world) : result call t :=
  match client self with
  | None => Result (Raise not_connected) self []
  | Some _ =>
      let sent := [Publish (request_topic self) data] in
      match publish_error w with
      | Some msg => Result (Raise (ValueError msg)) self sent
      | None =>
          let r :=
            match callback self with
            | None => poll_single self (start w) (ticks w)
            | Some cb => poll_stream self cb (start w) [] (ticks w)
            end in
          Result (fst r) (snd r) sent
      end
  end.

(** [close]. *)
Definition close (self : t) : result call t :=
  match client self with
  | Some _ => Result (Return RNone) (set_client self None)
                [LoopStop; Disconnect]
  | None => Result (Return RNone) self []
  end.

End MQTT.

(** ** WebSocket.py: full-duplex socket *)

Module WebSocket.

(** The connection returned by [websockets.sync.client.connect]. *)
Record Conn := { to_url : string }.

(** Calls that act on the peer. *)
Inductive call :=
| Open (url : string)
| Send (payload : Message)
| Close.

Record t := {
  url : string;
  ws : option Conn;
  callback : option (Message → bool)
}.

Definition set_ws (self : t) (c : option Conn) : t :=
  {| url := url self; ws := c; callback := callback self |}.

Definition init (url : string) (callback : option (Message → bool)) : t :=
  {| url := url; ws := None; callback := callback |}.

(** [connect].  [failure] is the exception of the handshake, if any; the
    assignment to [self.ws] is not reached then. *)
Definition connect (self : t) (failure : option exn) : result call t :=
  match failure with
  | None => Result (Return RNone)
              (set_ws self (Some {| to_url := url self |}))
              [Open (url self)]
  | Some e => Result (Raise e) self [Open (url self)]
  end.

(** What one [recv()] gives: a text frame that decodes to [m], a text
    frame [json.loads] rejects, or an exception of the socket. *)
Inductive frame :=
| Text (m : Message)
| Undecodable
| Broken (e : exn).

(** [send_error]: the exception of [ws.send], if any.  [inbound]: all the
    peer ever delivers; [recv()] takes no timeout, so once [inbound] is
    used up it does not return. *)
Record world := { send_error : option exn; inbound : list frame }.

Definition decode_error : exn := LibraryError "JSONDecodeError".

(** Lines 39-40 ([callback is None]). *)
Definition recv_single (inbound : list frame) : outcome :=
  match inbound with
  | [] => Waiting
  | Text m :: _ => Return (One m)
  | Undecodable :: _ => Raise decode_error
  | Broken e :: _ => Raise e
  end.

(** The loop of lines 43-48, [results] being its local list. *)
Fixpoint recv_stream (cb : Message → bool) (results : list Message)
    (inbound : list frame) : outcome :=
  match inbound with
  | [] => Waiting
  | Text m :: inbound =>
      let results := results ++ [m] in
      if cb m then Return (Many results)
      else recv_stream cb results inbound
  | Undecodable :: _ => Raise decode_error
  | Broken e :: _ => Raise e
  end.

(** [send]. *)
Definition send (self : t) (data : Message) (w : world) : result call t :=
  match ws self with
  | None => Result (Raise not_connected) self []
  | Some _ =>
      match send_error w with
      | Some e => Result (Raise e) self [Send data]
      | None =>
          let o :=
            match callback self with
            | None => recv_single (inbound w)
            | Some cb => recv_stream cb [] (inbound w)
            end in
          Result o self [Send data]
      end
  end.

(** [close]. *)
Definition close (self : t) : result call t :=
  match ws self with
  | Some _ => Result (Return RNone) (set_ws self None) [Close]
  | None => Result (Return RNone) self []
  end.

End WebSocket.

(** ** HTTP.py: streaming request *)

Module HTTP.

(** The [httpx.Client] handle; its headers are a constant. *)
Record Client := { of_base_url : option string; of_timeout : Z }.

Inductive call :=
| NewClient (base_url : option string) (timeout : Z)
| Stream (endpoint : string) (json : Message)
| Close.

(** [base_url] and [ended] are options because the constructor can be
    handed [None] for either. *)
Record t := {
  base_url : option string;
  timeout : Z;
  endpoint : string;
  ended : option (Message → bool);
  client : option Client
}.

Definition set_client (self : t) (c : option Client) : t :=
  {| base_url := base_url self; timeout := timeout self;
     endpoint := endpoint self; ended := ended self; client := c |}.

(** [__init__]: either the exception of a failed check, or the object. *)
Definition init (ended : option (Message → bool)) (base_url : option string)
    (endpoint : string) (timeout : Z) : exn + t :=
  match base_url with
  | None => inl (TypeError "服务器地址不能为空")
  | Some _ =>
      if (timeout <=? 0)%Z then inl (ValueError "超时时间必须是非零的正整数")
      else inr {| base_url := base_url; timeout := timeout;
                  endpoint := endpoint; ended := ended; client := None |}
  end.

(** [connect]: builds the client, with the timeout of the object; nothing
    goes over the network yet.  [failure] is the exception of
    [httpx.Client(...)], if any (an address it cannot parse); the
    assignment to [self.client] is not reached then. *)
Definition connect (self : t) (failure : option exn) : result call t :=
  match failure with
  | None =>
      Result (Return RNone)
        (set_client self
           (Some {| of_base_url := base_url self;
                    of_timeout := timeout self |}))
        [NewClient (base_url self) (timeout self)]
  | Some e => Result (Raise e) self [NewClient (base_url self) (timeout self)]
  end.

(** The exceptions of httpx, as far as [send] tells them apart. *)
Inductive httpx_error :=
| ConnectError
| TimeoutException
| OtherError (name : string).

(** The error of [str + None]; the text has two double quotes in it. *)
Definition cannot_concatenate : exn :=
  let quote := String (Ascii.ascii_of_nat 34) EmptyString in
  TypeError ("can only concatenate str (not " +:+ quote +:+ "NoneType"
             +:+ quote +:+ ") to str").

(** The two [except] clauses of [send]; anything else goes through.
    [__init__] lets no [base_url] of [None] in, so the concatenation of
    the first clause does not fail on an object it built. *)
Definition handle (self : t) (e : httpx_error) : exn :=
  match e with
  | ConnectError =>
      match base_url self with
      | Some u => ConnectionError ("无法连接到服务器: " +:+ u)
      | None => cannot_concatenate
      end
  | TimeoutException =>
      TimeoutError
        ("请求超时，超时时间: " +:+ pretty (timeout self) +:+ "秒")
  | OtherError name => LibraryError name
  end.

(** One step of [iter_lines()]: an empty line, a line that decodes to
    [m], a line [json.loads] rejects, or an exception of the read. *)
Inductive line :=
| Blank
| Json (m : Message)
| Malformed
| ReadError (e : httpx_error).

(** [opening]: the exception of [client.stream(...)], if any.
    [bad_status]: whether [raise_for_status()] raises.  [body]: the
    lines of the response body, which ends where the list ends. *)
Record world := {
  opening : option httpx_error;
  bad_status : bool;
  body : list line
}.

(** How the iteration of a generator ends. *)
Inductive ending :=
| Exhausted
| Raised (e : exn).

(** The generator object a call of [send] returns: the body of [send],
    not yet started, with the argument of the call.  It works on the
    object itself, as the object is when the generator is advanced. *)
Record generator := { gen_data : Message }.

(** [send] is a generator function: the call runs nothing of its body,
    cannot raise, and returns the generator. *)
Definition send (self : t) (data : Message) : exn + generator :=
  inr {| gen_data := data |}.

(** A [run] is a generator advanced to its end: the messages yielded, in
    order, how the iteration ended, and the calls made on the client. *)
Record run := Run {
  yielded : list Message;
  finish : ending;
  calls : list call
}.

Definition not_callable : exn :=
  TypeError "'NoneType' object is not callable".

(** The [for line in e.iter_lines()] loop. *)
Fixpoint iter_lines (self : t) (body : list line)
    : list Message * ending :=
  match body with
  | [] => ([], Exhausted)
  | Blank :: body => iter_lines self body
  | Json m :: body =>
      match ended self with
      | None => ([m], Raised not_callable)
      | Some f =>
          if f m then ([m], Exhausted)
          else let r := iter_lines self body in (m :: fst r, snd r)
      end
  | Malformed :: _ => ([], Raised (LibraryError "JSONDecodeError"))
  | ReadError e :: _ => ([], Raised (handle self e))
  end.

(** The body of [send], run when the generator is advanced; [self] is the
    object as it is then. *)
Definition iterate (self : t) (g : generator) (w : world) : run :=
  match client self with
  | None => Run [] (Raised not_connected) []
  | Some _ =>
      let sent := [Stream (endpoint self) (gen_data g)] in
      match opening w with
      | Some e => Run [] (Raised (handle self e)) sent
      | None =>
          if bad_status w then
            Run [] (Raised (LibraryError "HTTPStatusError")) sent
          else
            let r := iter_lines self (body w) in
            Run (fst r) (snd r) sent
      end
  end.

(** An exchange: the call of [send] and the iteration of what it returns
    to the end, the object not touched in between. *)
Definition stream (self : t) (data : Message) (w : world) : run :=
  match send self data with
  | inr g => iterate self g w
  | inl e => Run [] (Raised e) []
  end.

(** [close]. *)
Definition close (self : t) : result call t :=
  match client self with
  | Some _ => Result (Return RNone) (set_client self None) [Close]
  | None => Result (Return RNone) self []
  end.

End HTTP.

Ltac unfold_stream :=
  unfold HTTP.stream, HTTP.send, HTTP.iterate;
  cbv beta iota delta [HTTP.gen_data].

(** ** PublicTools/id_generator.py *)

Module IdGenerator.

(** [s.replace("-", "")]: every hyphen goes. *)
Definition remove_hyphens (s : string) : string :=
  String.string_of_list_ascii
    (List.filter (λ c, negb (Ascii.eqb c "-"%char))
       (String.list_ascii_of_string s)).

(** [str.upper] on a character of ASCII text, which is all the text of a
    UUID is made of: the letters [a] to [z] move to [A] to [Z]. *)
Definition upper_char (c : ascii) : ascii :=
  let n := Ascii.N_of_ascii c in
  if ((97 <=? n) && (n <=? 122))%N then Ascii.ascii_of_N (n - 32) else c.

Definition upper (s : string) : string :=
  String.string_of_list_ascii (map upper_char (String.list_ascii_of_string s)).

(** [generate_id]; [uuid4] is [str(uuid.uuid4())]. *)
Definition generate_id (with_hyphen uppercase : bool) (uuid4 : string)
    : string :=
  let result := uuid4 in
  let result := if negb with_hyphen then remove_hyphens result else result in
  let result := if uppercase then upper result else result in
  result.

(** A digit of lower-case hexadecimal. *)
Definition is_hex (c : ascii) : bool :=
  let n := Ascii.N_of_ascii c in
  (((48 <=? n) && (n <=? 57)) || ((97 <=? n) && (n <=? 102)))%N.

(** The text [str] gives for a UUID: groups of 8, 4, 4, 4 and 12
    lower-case hexadecimal digits with a hyphen between them. *)
Definition uuid_text (u : string) : Prop :=
  ∃ a b c d e : list ascii,
    String.list_ascii_of_string u
      = a ++ "-"%char :: b ++ "-"%char :: c ++ "-"%char :: d
          ++ "-"%char :: e
    ∧ length a = 8 ∧ length b = 4 ∧ length c = 4 ∧ length d = 4
    ∧ length e = 12
    ∧ Forall (λ x, is_hex x = true) (a ++ b ++ c ++ d ++ e).

End IdGenerator.

(** ** client/module/service/WebSocket.py: the server side *)

Module WebSocketServer.

(** A connection handed to [_handler], by identity. *)
Abbreviation socket := nat.

(** A call of one of the three callbacks the user has set. *)
Inductive call :=
| OnConnect (websocket : socket)
| OnMessage (websocket : socket) (message : string)
| OnDisconnect (websocket : socket).

(** A callback is a coroutine of the user: all that counts here is whether
    awaiting it returns ([None]) or raises. *)
Record t := {
  host : string;
  port : Z;
  clients : gset socket;
  _on_connect_callback : option (socket → option exn);
  _on_message_callback : option (socket → string → option exn);
  _on_disconnect_callback : option (socket → option exn)
}.

Definition init (host : string) (port : Z) : t :=
  {| host := host; port := port; clients := ∅;
     _on_connect_callback := None; _on_message_callback := None;
     _on_disconnect_callback := None |}.

Definition set_clients (self : t) (cs : gset socket) : t :=
  {| host := host self; port := port self; clients := cs;
     _on_connect_callback := _on_connect_callback self;
     _on_message_callback := _on_message_callback self;
     _on_disconnect_callback := _on_disconnect_callback self |}.

Definition set_on_connect (self : t) (callback : socket → option exn) : t :=
  {| host := host self; port := port self; clients := clients self;
     _on_connect_callback := Some callback;
     _on_message_callback := _on_message_callback self;
     _on_disconnect_callback := _on_disconnect_callback self |}.

Definition set_on_message (self : t)
    (callback : socket → string → option exn) : t :=
  {| host := host self; port := port self; clients := clients self;
     _on_connect_callback := _on_connect_callback self;
     _on_message_callback := Some callback;
     _on_disconnect_callback := _on_disconnect_callback self |}.

Definition set_on_disconnect (self : t) (callback : socket → option exn)
    : t :=
  {| host := host self; port := port self; clients := clients self;
     _on_connect_callback := _on_connect_callback self;
     _on_message_callback := _on_message_callback self;
     _on_disconnect_callback := Some callback |}.

(** The life of one connection: the messages the client sends, then how
    the iteration over the socket ends, by itself ([None], a clean close)
    or with an exception. *)
Record world := { incoming : list string; closing : option exn }.

(** The [async for] loop: how it ends, and the callback calls made. *)
Fixpoint receive (self : t) (websocket : socket) (incoming : list string)
    (closing : option exn) : option exn * list call :=
  match incoming with
  | [] => (closing, [])
  | message :: incoming =>
      match _on_message_callback self with
      | Some callback =>
          match callback websocket message with
          | Some e => (Some e, [OnMessage websocket message])
          | None =>
              let r := receive self websocket incoming closing in
              (fst r, OnMessage websocket message :: snd r)
          end
      | None => receive self websocket incoming closing
      end
  end.

(** The [try] block of [_handler]. *)
Definition serve (self : t) (websocket : socket) (w : world)
    : option exn * list call :=
  match _on_connect_callback self with
  | Some callback =>
      match callback websocket with
      | Some e => (Some e, [OnConnect websocket])
      | None =>
          let r := receive self websocket (incoming w) (closing w) in
          (fst r, OnConnect websocket :: snd r)
      end
  | None => receive self websocket (incoming w) (closing w)
  end.

(** [_handler]: [try] ... [finally]. *)
Definition _handler (self : t) (websocket : socket) (w : world)
    : result call t :=
  let self := set_clients self ({[websocket]} ∪ clients self) in
  let body := serve self websocket w in
  let self := set_clients self (clients self ∖ {[websocket]}) in
  let ended := match fst body with
               | Some e => Raise e
               | None => Return RNone
               end in
  match _on_disconnect_callback self with
  | Some callback =>
      match callback websocket with
      | Some e => Result (Raise e) self (snd body ++ [OnDisconnect websocket])
      | None => Result ended self (snd body ++ [OnDisconnect websocket])
      end
  | None => Result ended self (snd body)
  end.

End WebSocketServer.

(** ** service/HTTP.py: the request hooks of the server *)

Module HTTPServer.

Inductive call :=
| Before (name : string)
| Handler
| After (name : string).

(** What [start] and [stop] do outside the object. *)
Inductive control :=
| Print (text : string)
| ThreadStart
| Run (host : string) (port : Z) (log_level : string).

(** What a call of [Server.run()] does. *)
Inductive running :=
| Stops
| GoesOn
| Fails (e : exn).

Section Hooks.

(** The request and response objects of the framework. *)
Context {Request Response : Type}.

(** A hook is a function of the user, named here to tell the hooks apart.
    It is handed the request (and the response) by reference and may
    change them in place; it returns or raises, and what it returns is
    not used. *)
Record before_hook := {
  before_name : string;
  before_run : Request → exn + Request
}.

Record after_hook := {
  after_name : string;
  after_run : Request → Response → exn + Request * Response
}.

(** The object, without its FastAPI application: [_server] is the
    [uvicorn.Server] of the last run with its [should_exit] flag, and
    [_thread] tells whether a background thread was created. *)
Record t := {
  host : string;
  port : Z;
  debug : bool;
  is_running : bool;
  _server : option bool;
  _thread : bool;
  _before_request_hooks : list before_hook;
  _after_request_hooks : list after_hook
}.

Definition set_hooks (self : t) (before : list before_hook)
    (after : list after_hook) : t :=
  {| host := host self; port := port self; debug := debug self;
     is_running := is_running self; _server := _server self;
     _thread := _thread self;
     _before_request_hooks := before; _after_request_hooks := after |}.

Definition set_control (self : t) (running : bool) (server : option bool)
    (thread : bool) : t :=
  {| host := host self; port := port self; debug := debug self;
     is_running := running; _server := server; _thread := thread;
     _before_request_hooks := _before_request_hooks self;
     _after_request_hooks := _after_request_hooks self |}.

(** [before_request]: appends, and returns the function it was given. *)
Definition before_request (self : t) (func : before_hook)
    : before_hook * t :=
  (func,
   set_hooks self (_before_request_hooks self ++ [func])
     (_after_request_hooks self)).

(** [after_request]. *)
Definition after_request (self : t) (func : after_hook) : after_hook * t :=
  (func,
   set_hooks self (_before_request_hooks self)
     (_after_request_hooks self ++ [func])).

(** A hook that returns, whatever it is given. *)
Definition before_returns (hook : before_hook) : Prop :=
  ∀ request, ∃ request', before_run hook request = inr request'.

Definition after_returns (hook : after_hook) : Prop :=
  ∀ request response,
    ∃ changed, after_run hook request response = inr changed.

(** [_run_server]: [run] is what [Server.run()] does, which comes back
    once the server got to stop, goes on, or raises (a port in use makes
    it exit); only in the first case is [is_running] reset. *)
Definition _run_server (self : t) (run : running) : result control t :=
  let self := set_control self (is_running self) (Some false)
                (_thread self) in
  let ran := [Run (host self) (port self)
                (if debug self then "debug" else "info")] in
  match run with
  | Stops =>
      Result (Return RNone)
        (set_control self false (_server self) (_thread self)) ran
  | GoesOn => Result Waiting self ran
  | Fails e => Result (Raise e) self ran
  end.

(** [start]; in the background mode the thread has been started and
    [_run_server] is its business from then on. *)
Definition start (self : t) (block : bool) (run : running)
    : result control t :=
  if is_running self then
    Result (Return RNone) self [Print "服务器已经在运行中"]
  else
    let self := set_control self true (_server self) (_thread self) in
    if block then _run_server self run
    else
      Result (Return RNone)
        (set_control self (is_running self) (_server self) true)
        [ThreadStart;
         Print ("HTTP 服务器已在后台启动: http://" +:+ host self +:+ ":"
                +:+ pretty (port self))].

(** [stop]. *)
Definition stop (self : t) : result control t :=
  if negb (is_running self) then
    Result (Return RNone) self [Print "服务器未在运行"]
  else
    match _server self with
    | Some _ =>
        Result (Return RNone)
          (set_control self (is_running self) (Some true) (_thread self))
          [Print "正在停止 HTTP 服务器..."]
    | None => Result (Return RNone) self []
    end.

(** The first loop of [hooks_middleware]. *)
Fixpoint run_before (hooks : list before_hook) (request : Request)
    : (exn + Request) * list call :=
  match hooks with
  | [] => (inr request, [])
  | hook :: hooks =>
      match before_run hook request with
      | inl e => (inl e, [Before (before_name hook)])
      | inr request =>
          let r := run_before hooks request in
          (fst r, Before (before_name hook) :: snd r)
      end
  end.

(** The second loop. *)
Fixpoint run_after (hooks : list after_hook) (request : Request)
    (response : Response) : (exn + Response) * list call :=
  match hooks with
  | [] => (inr response, [])
  | hook :: hooks =>
      match after_run hook request response with
      | inl e => (inl e, [After (after_name hook)])
      | inr (request, response) =>
          let r := run_after hooks request response in
          (fst r, After (after_name hook) :: snd r)
      end
  end.

(** [hooks_middleware]; [call_next] is the rest of the application, which
    takes the request and answers or raises. *)
Definition hooks_middleware (self : t) (request : Request)
    (call_next : Request → exn + Request * Response)
    : (exn + Response) * list call :=
  let b := run_before (_before_request_hooks self) request in
  match fst b with
  | inl e => (inl e, snd b)
  | inr request =>
      match call_next request with
      | inl e => (inl e, snd b ++ [Handler])
      | inr (request, response) =>
          let a := run_after (_after_request_hooks self) request response in
          (fst a, snd b ++ Handler :: snd a)
      end
  end.

End Hooks.

Arguments before_hook : clear implicits.
Arguments after_hook : clear implicits.
Arguments t : clear implicits.

End HTTPServer.

(** ** client/module/AICore/AIManager.py: the factory *)

Module AIFactory.

(** The exceptions of the factory: its own, and what a model class
    raises when it is built. *)
Inductive error :=
| FileNotFoundError (msg : string)
| ValueError (msg : string)
| Built (e : exn).

(** What [role/config.json] holds for a vendor: something that is not an
    object (a [null] too), or an object from model names to parameters,
    [None] standing for a [null]. *)
Inductive entry (Params : Type) :=
| NotADict
| Models (models : gmap string (option Params)).
Arguments NotADict {Params}.
Arguments Models {Params} _.

(** The configuration file as [_extract_params] finds it: whether it is
    there, and the JSON object it holds. *)
Record files (Params : Type) := {
  config_path : string;
  config_exists : bool;
  config : gmap string (entry Params)
}.
Arguments config_path {Params} _.
Arguments config_exists {Params} _.
Arguments config {Params} _.

(** The history manager [HistHistoryManager(...)] builds, known here by
    the arguments it was built from. *)
Record History (Callback : Type) := {
  messages : list Message;
  system_prompt : string;
  token_callback_of : Callback;
  maxtoken : Z
}.
Arguments messages {Callback} _.
Arguments system_prompt {Callback} _.
Arguments token_callback_of {Callback} _.
Arguments maxtoken {Callback} _.

Section Factory.

(** The parameters of a model, the model objects, and their token
    callbacks; [build] is the constructor of the class of that name in
    [.Model], [token_callback] and [max_tokens] the two attributes read
    off a model. *)
Context {Params Model Callback : Type}.
Variable build : string → Params → exn + Model.
Variable token_callback : Model → Callback.
Variable max_tokens : Model → Z.

Record t := {
  token : option string;
  ai : option Model;
  history : option (History Callback)
}.

Definition init : t := {| token := None; ai := None; history := None |}.

Definition set_token (self : t) (tok : string) : t :=
  {| token := Some tok; ai := ai self; history := history self |}.

Definition disconnect (self : t) : t :=
  {| token := token self; ai := None; history := None |}.

(** [_extract_params]. *)
Definition _extract_params (fs : files Params) (vendor model_name : string)
    : error + Params :=
  if negb (config_exists fs) then
    inl (FileNotFoundError ("配置文件未找到: " +:+ config_path fs))
  else
    match config fs !! vendor with
    | Some (Models models) =>
        match models !! model_name with
        | Some (Some params) => inr params
        | Some None | None =>
            inl (ValueError ("在供应商 '" +:+ vendor
                             +:+ "' 的配置下未找到模型 '" +:+ model_name
                             +:+ "' 的参数"))
        end
    | Some NotADict | None =>
        inl (ValueError ("在配置文件中未找到供应商 '" +:+ vendor
                         +:+ "' 的配置"))
    end.

Definition lift (r : exn + Model) : error + Model :=
  match r with
  | inl e => inl (Built e)
  | inr m => inr m
  end.

(** [call_model]. *)
Definition call_model (vendor : string) (params : Params) : error + Model :=
  if String.eqb vendor "deepseek" then lift (build "DeepSeek" params)
  else if String.eqb vendor "doubao" then lift (build "Doubao" params)
  else if String.eqb vendor "kimi" then lift (build "Kimi" params)
  else if String.eqb vendor "qwen" then lift (build "Qwen" params)
  else if bool_decide (vendor ∈ ["chatgpt"; "claude"; "gemini"; "xinhuo"])
  then inl (ValueError ("暂不支持的供应商: " +:+ vendor))
  else inl (ValueError ("不支持的供应商: " +:+ vendor)).

(** [switch_model]: the exception, if any, and the object afterwards. *)
Definition switch_model (self : t) (fs : files Params)
    (vendor model_name : string) (prompt : option string)
    : option error * t :=
  if negb (String.eqb vendor "") && negb (String.eqb model_name "") then
    match _extract_params fs vendor model_name with
    | inl e => (Some e, self)
    | inr params =>
        match call_model vendor params with
        | inl e => (Some e, self)
        | inr model =>
            let self := {| token := token self; ai := Some model;
                           history := history self |} in
            match history self with
            | None =>
                match prompt with
                | None =>
                    (Some (ValueError "首次连接必须提供 system_prompt"), self)
                | Some text =>
                    (None,
                     {| token := token self; ai := ai self;
                        history :=
                          Some {| messages := []; system_prompt := text;
                                  token_callback_of := token_callback model;
                                  maxtoken := max_tokens model |} |})
                end
            | Some _ => (None, self)
            end
        end
    end
  else (None, self).

(** [connect]. *)
Definition connect (self : t) (fs : files Params)
    (vendor model_name prompt : string) : option error * t :=
  switch_model self fs vendor model_name (Some prompt).

End Factory.

End AIFactory.

(** ** Vocabulary of the properties *)

(** A list of messages that ends at the first one [cb] accepts. *)
Definition stops_at_first (cb : Message → bool) (l : list Message) : Prop :=
  ∃ init m, l = init ++ [m] ∧ cb m = true ∧ Forall (λ x, cb x = false) init.

(** A call that answers with one dictionary, or fails. *)
Definition single_reply (o : outcome) : Prop :=
  (∃ m, o = Return (One m)) ∨ (∃ e, o = Raise e).

(** A call that has ended, one way or the other. *)
Definition finished (o : outcome) : Prop := o ≠ Waiting.

Definition is_error (o : outcome) : Prop := ∃ e, o = Raise e.

(** [single_reply] for a generator: one message and the end, or an
    exception. *)
Definition single_reply_run (r : HTTP.run) : Prop :=
  (∃ m, HTTP.yielded r = [m] ∧ HTTP.finish r = HTTP.Exhausted)
  ∨ (∃ e, HTTP.finish r = HTTP.Raised e).

(** Objects that are not connected: [connect] was never called on them,
    or [close] was. *)
Inductive mqtt_down : MQTT.t → Prop :=
| mqtt_never_connected broker port client_id request_topic response_topic
    callback timeout :
    mqtt_down (MQTT.init broker port client_id request_topic response_topic
                 callback timeout)
| mqtt_closed self : mqtt_down (post (MQTT.close self)).

Inductive ws_down : WebSocket.t → Prop :=
| ws_never_connected url callback : ws_down (WebSocket.init url callback)
| ws_closed self : ws_down (post (WebSocket.close self)).

Inductive http_down : HTTP.t → Prop :=
| http_never_connected ended base_url endpoint timeout self :
    HTTP.init ended base_url endpoint timeout = inr self → http_down self
| http_closed self : http_down (post (HTTP.close self)).

(** The HTTP objects a program can hold: built by the constructor, then
    taken through any number of [connect] and [close] calls. *)
Inductive http_built : HTTP.t → Prop :=
| built_init ended base_url endpoint timeout self :
    HTTP.init ended base_url endpoint timeout = inr self → http_built self
| built_connect self failure :
    http_built self → http_built (post (HTTP.connect self failure))
| built_close self :
    http_built self → http_built (post (HTTP.close self)).

(** The lines of a body that are not empty. *)
Definition non_blank (body : list HTTP.line) : list HTTP.line :=
  List.filter
    (λ l, match l with HTTP.Blank => false | _ => true end) body.

(** ** Sample objects and worlds *)

Module Sample.

Definition chunk (s : string) : Message := {[ "chunk" := VStr s ]}.
Definition final : Message := {[ "done" := VBool true ]}.
Definition answer : Message := {[ "answer" := VInt 42 ]}.
Definition question : Message := {[ "ask" := VStr "6 x 7" ]}.

(** [lambda m: m.get("done") == True] *)
Definition is_done (m : Message) : bool :=
  bool_decide (m !! "done" = Some (VBool true)).

Definition mqtt_new (cb : option (Message → bool)) : MQTT.t :=
  MQTT.init "127.0.0.1" 1883 None "agent/request" "agent/response" cb 30.

Definition mqtt_up (cb : option (Message → bool)) : MQTT.t :=
  post (MQTT.connect (mqtt_new cb) None).

Definition ws_new (cb : option (Message → bool)) : WebSocket.t :=
  WebSocket.init "ws://127.0.0.1:8000/ws" cb.

Definition ws_up (cb : option (Message → bool)) : WebSocket.t :=
  post (WebSocket.connect (ws_new cb) None).

Definition http_new (ended : option (Message → bool)) : HTTP.t :=
  {| HTTP.base_url := Some "http://127.0.0.1:8000"; HTTP.timeout := 30;
     HTTP.endpoint := "/chat"; HTTP.ended := ended; HTTP.client := None |}.

Definition http_up (ended : option (Message → bool)) : HTTP.t :=
  post (HTTP.connect (http_new ended) None).

(** Three polls: two chunks, then the final message; the clock starts at
    100 and stays inside the 30 units. *)
Definition three_polls : MQTT.world :=
  {| MQTT.publish_error := None; MQTT.start := 100;
     MQTT.ticks :=
       [ {| MQTT.arrivals := [chunk "a"]; MQTT.now := 101 |};
         {| MQTT.arrivals := [chunk "b"]; MQTT.now := 102 |};
         {| MQTT.arrivals := [final]; MQTT.now := 103 |} ] |}.

(** The final message is there on the poll at which the clock has passed
    the deadline ([131 - 100 > 30]). *)
Definition photo_finish : MQTT.world :=
  {| MQTT.publish_error := None; MQTT.start := 100;
     MQTT.ticks :=
       [ {| MQTT.arrivals := [chunk "a"]; MQTT.now := 110 |};
         {| MQTT.arrivals := [final]; MQTT.now := 131 |} ] |}.


(** A connected object whose listener has buffered one message. *)
Definition mqtt_stale : MQTT.t := MQTT.deliver (mqtt_up None) [answer].


Definition three_frames : WebSocket.world :=
  {| WebSocket.send_error := None;
     WebSocket.inbound :=
       [WebSocket.Text (chunk "a"); WebSocket.Text (chunk "b");
        WebSocket.Text final] |}.

(** A response with status 200 and an empty body. *)
Definition empty_body : HTTP.world :=
  {| HTTP.opening := None; HTTP.bad_status := false; HTTP.body := [] |}.

(** One line, then the read times out. *)
Definition stalled_body : HTTP.world :=
  {| HTTP.opening := None; HTTP.bad_status := false;
     HTTP.body := [HTTP.Json (chunk "a");
                   HTTP.ReadError HTTP.TimeoutException] |}.

(** A server with no hook, its run under way in the background. *)
Definition http_server : HTTPServer.t Message Message :=
  {| HTTPServer.host := "127.0.0.1"; HTTPServer.port := 8000;
     HTTPServer.debug := false; HTTPServer.is_running := true;
     HTTPServer._server := Some false; HTTPServer._thread := true;
     HTTPServer._before_request_hooks := [];
     HTTPServer._after_request_hooks := [] |}.

Definition log_hook : HTTPServer.before_hook Message :=
  {| HTTPServer.before_name := "log_request";
     HTTPServer.before_run := inr |}.


Definition stamp_hook : HTTPServer.after_hook Message Message :=
  {| HTTPServer.after_name := "log_response";
     HTTPServer.after_run := λ request response, inr (request, response) |}.

(** A route that answers every request with [answer]. *)
Definition route (request : Message) : exn + Message * Message :=
  inr (request, answer).

(** Model classes that keep their name and parameters, and name their
    token callback after the class. *)
Definition build (class : string) (params : Message)
    : exn + string * Message := inr (class, params).

Definition callback_of (model : string * Message) : string := fst model.

Definition budget_of (model : string * Message) : Z :=
  match snd model !! "max_tokens" with
  | Some (VInt n) => n
  | _ => 0
  end.

Definition config_json : AIFactory.files Message :=
  {| AIFactory.config_path := "role/config.json";
     AIFactory.config_exists := true;
     AIFactory.config :=
       {[ "deepseek" :=
            AIFactory.Models
              {[ "deepseek-chat" :=
                   Some ({[ "max_tokens" := VInt 4096 ]} : Message) ]};
          "qwen" :=
            AIFactory.Models
              {[ "qwen-turbo" :=
                   Some ({[ "max_tokens" := VInt 8192 ]} : Message) ]} ]} |}.

Definition factory : AIFactory.t (Model := string * Message)
                       (Callback := string) :=
  AIFactory.init.

End Sample.

(** ** The polling loops of MQTT.send *)

Section MqttLoops.

Import MQTT.

Lemma timeout_deliver self ms : timeout (deliver self ms) = timeout self.
Proof.
  revert self. induction ms as [|m ms IH]; intros self; simpl; [done|].
  by rewrite IH.
Qed.

Lemma messages_deliver self ms :
  messages (deliver self ms) = messages self ++ ms.
Proof.
  revert self. induction ms as [|m ms IH]; intros self; simpl.
  - by rewrite app_nil_r.
  - rewrite IH. simpl. by rewrite <- app_assoc.
Qed.

Lemma client_deliver self ms : client (deliver self ms) = client self.
Proof.
  revert self. induction ms as [|m ms IH]; intros self; simpl; [done|].
  by rewrite IH.
Qed.

Lemma timed_out_deliver self start tk ms :
  timed_out (deliver self ms) start tk = timed_out self start tk.
Proof. unfold timed_out. by rewrite timeout_deliver. Qed.

Lemma timed_out_set_messages self start tk ms :
  timed_out (set_messages self ms) start tk = timed_out self start tk.
Proof. done. Qed.

(** A returned list holds the earlier [results], which [cb] rejected,
    and ends at the first message [cb] accepts. *)
Lemma poll_stream_returns cb start ticks : ∀ self results v self',
  Forall (λ x, cb x = false) results →
  poll_stream self cb start results ticks = (Return v, self') →
  ∃ l, v = Many l ∧ stops_at_first cb l.
Proof.
  induction ticks as [|tk ticks IH]; intros self results v self' Hres;
    simpl; [discriminate|].
  destruct (messages (deliver self (arrivals tk))) as [|m ms] eqn:Hbuf.
  - destruct (timed_out _ start tk); [discriminate|]. by apply IH.
  - destruct (cb m) eqn:Hm.
    + intros [= <- <-]. exists (results ++ [m]). split; [done|].
      by exists results, m.
    + destruct (timed_out _ start tk); [discriminate|].
      apply IH. apply Forall_app. split; [done|]. by constructor.
Qed.

(** The single-response loop returns one dictionary, or times out. *)
Lemma poll_single_outcome start ticks : ∀ self,
  (∃ m, fst (poll_single self start ticks) = Return (One m))
  ∨ fst (poll_single self start ticks) = Raise timeout_error
  ∨ fst (poll_single self start ticks) = Waiting.
Proof.
  induction ticks as [|tk ticks IH]; intros self; simpl; [by auto|].
  destruct (messages (deliver self (arrivals tk))) as [|m ms].
  - destruct (timed_out _ start tk); [by auto|]. apply IH.
  - left. by exists m.
Qed.

(** A loop that raises, raises the timeout, on a poll [tk] whose clock is
    past the deadline; the messages it popped, none of them final, are in
    neither the buffer nor the exception. *)
Lemma poll_stream_raises cb start ticks : ∀ self results e self',
  poll_stream self cb start results ticks = (Raise e, self') →
  e = timeout_error ∧
  ∃ before tk rest popped,
    ticks = before ++ tk :: rest ∧
    timed_out self start tk = true ∧
    Forall (λ x, cb x = false) popped ∧
    messages self ++ concat (arrivals <$> before ++ [tk])
      = popped ++ messages self'.
Proof.
  induction ticks as [|tk ticks IH]; intros self results e self';
    simpl; [discriminate|].
  pose proof (messages_deliver self (arrivals tk)) as Hd.
  destruct (messages (deliver self (arrivals tk))) as [|m ms] eqn:Hbuf.
  - destruct (timed_out _ start tk) eqn:Hout.
    + intros [= <- <-]. split; [done|].
      rewrite timed_out_deliver in Hout.
      exists [], tk, ticks, []. repeat split; [done..|]. simpl.
      by rewrite app_nil_r, <- Hd, Hbuf.
    + intros H.
      destruct (IH _ _ _ _ H)
        as (-> & before & tk' & rest & popped & -> & Hlate & Hrej & Heq).
      split; [done|]. rewrite timed_out_deliver in Hlate.
      exists (tk :: before), tk', rest, popped. repeat split; [done..|].
      rewrite Hbuf in Heq. simpl. by rewrite app_assoc, <- Hd.
  - destruct (cb m) eqn:Hm; [discriminate|].
    destruct (timed_out _ start tk) eqn:Hout.
    + intros [= <- <-]. split; [done|].
      rewrite timed_out_set_messages, timed_out_deliver in Hout.
      exists [], tk, ticks, [m]. repeat split; [done|by constructor|].
      simpl. by rewrite app_nil_r, <- Hd.
    + intros H.
      destruct (IH _ _ _ _ H)
        as (-> & before & tk' & rest & popped & -> & Hlate & Hrej & Heq).
      split; [done|].
      rewrite timed_out_set_messages, timed_out_deliver in Hlate.
      exists (tk :: before), tk', rest, (m :: popped).
      repeat split; [done|by constructor|]. simpl in *.
      by rewrite app_assoc, <- Hd, <- Heq.
Qed.

End MqttLoops.

Section MqttDeadline.

Import MQTT.

(** Both loops have ended by the first poll at which the clock is past
    the deadline, and read nothing of the world after it. *)
Lemma poll_single_deadline start tk after : ∀ before self,
  timed_out self start tk = true →
  fst (poll_single self start (before ++ [tk])) ≠ Waiting ∧
  poll_single self start (before ++ tk :: after)
    = poll_single self start (before ++ [tk]).
Proof.
  induction before as [|b before IH]; intros self Hout; simpl.
  - destruct (messages (deliver self (arrivals tk))); [|done].
    by rewrite timed_out_deliver, Hout.
  - destruct (messages (deliver self (arrivals b))); [|done].
    destruct (timed_out _ start b); [done|].
    apply IH. by rewrite timed_out_deliver.
Qed.


End MqttDeadline.

(** ** The receive loop of WebSocket.send, the line loop of HTTP.stream *)

Lemma recv_stream_returns cb inbound : ∀ results v,
  Forall (λ x, cb x = false) results →
  WebSocket.recv_stream cb results inbound = Return v →
  ∃ l, v = Many l ∧ stops_at_first cb l.
Proof.
  induction inbound as [|f inbound IH]; intros results v Hres; simpl;
    [discriminate|].
  destruct f as [m| |e]; [|discriminate..].
  destruct (cb m) eqn:Hm.
  - intros [= <-]. exists (results ++ [m]). split; [done|].
    by exists results, m.
  - apply IH. apply Forall_app. split; [done|]. by constructor.
Qed.

Lemma recv_single_outcome inbound :
  single_reply (WebSocket.recv_single inbound)
  ∨ (WebSocket.recv_single inbound = Waiting ∧ inbound = []).
Proof.
  destruct inbound as [|[m| |e] inbound]; simpl; unfold single_reply;
    eauto.
Qed.

(** Without a predicate the line loop gets past no message: the call of
    [None] raises right after the first [yield]. *)
Lemma iter_lines_without_predicate self body :
  HTTP.ended self = None →
  (fst (HTTP.iter_lines self body) = [])
  ∨ (∃ m, HTTP.iter_lines self body = ([m], HTTP.Raised HTTP.not_callable)).
Proof.
  intros Hnone. induction body as [|l body IH]; simpl; [by left|].
  destruct l as [|m| |e]; simpl; [done| |by left..].
  rewrite Hnone. right. by exists m.
Qed.

Lemma recv_stream_raises cb inbound : ∀ results e,
  WebSocket.recv_stream cb results inbound = Raise e →
  ∃ got bad rest,
    inbound = (WebSocket.Text <$> got) ++ bad :: rest
    ∧ Forall (λ x, cb x = false) got
    ∧ ((bad = WebSocket.Undecodable ∧ e = WebSocket.decode_error)
       ∨ bad = WebSocket.Broken e).
Proof.
  induction inbound as [|f inbound IH]; intros results e; simpl;
    [discriminate|].
  destruct f as [m| |e'].
  - destruct (cb m) eqn:Hm; [discriminate|]. intros H.
    destruct (IH _ _ H) as (got & bad & rest & -> & Hgot & Hbad).
    exists (m :: got), bad, rest. repeat split; [|done]. by constructor.
  - intros [= <-]. exists [], WebSocket.Undecodable, inbound.
    repeat split; [by constructor|by left].
  - intros [= <-]. exists [], (WebSocket.Broken e'), inbound.
    repeat split; [by constructor|by right].
Qed.

Lemma iter_lines_non_blank self body :
  HTTP.iter_lines self (non_blank body) = HTTP.iter_lines self body.
Proof.
  induction body as [|l body IH]; [done|].
  destruct l as [|m| |e]; simpl; [done| |done..].
  destruct (HTTP.ended self) as [f|]; [|done].
  destruct (f m); [done|]. by rewrite IH.
Qed.

(** Lines that decode to messages the predicate rejects are yielded one
    after the other, and the loop goes on with the lines after them. *)
Lemma iter_lines_rejected self f tail : ∀ ms,
  HTTP.ended self = Some f →
  Forall (λ x, f x = false) ms →
  HTTP.iter_lines self ((HTTP.Json <$> ms) ++ tail)
  = (ms ++ fst (HTTP.iter_lines self tail),
     snd (HTTP.iter_lines self tail)).
Proof.
  intros ms Hf. induction ms as [|m ms IH]; intros Hrej; simpl.
  - by destruct (HTTP.iter_lines self tail).
  - apply Forall_cons in Hrej as [Hm Hrej].
    rewrite Hf, Hm. specialize (IH Hrej).
    change (list_fmap Message HTTP.line HTTP.Json ms)
      with (HTTP.Json <$> ms).
    by rewrite IH.
Qed.

(** ** Objects that are not connected *)

Lemma mqtt_down_no_client self : mqtt_down self → MQTT.client self = None.
Proof.
  intros [|s]; [done|]. unfold MQTT.close.
  by destruct (MQTT.client s) eqn:Hc.
Qed.

Lemma ws_down_no_socket self : ws_down self → WebSocket.ws self = None.
Proof.
  intros [|s]; [done|]. unfold WebSocket.close.
  by destruct (WebSocket.ws s) eqn:Hc.
Qed.

Lemma http_down_no_client self : http_down self → HTTP.client self = None.
Proof.
  intros [ended base_url endpoint timeout s Hinit|s].
  - unfold HTTP.init in Hinit. destruct base_url; [|discriminate].
    destruct (timeout <=? 0)%Z; [discriminate|]. by injection Hinit as <-.
  - unfold HTTP.close. by destruct (HTTP.client s) eqn:Hc.
Qed.

(** ** Properties of [send] *)

(** C1.  With a termination predicate [cb], whatever [send] returns over
    publish/subscribe or over the socket is a list whose last message
    satisfies [cb] and whose earlier messages do not. *)
Theorem stream_stops_at_first_final
    (cb : Message → bool) (data : Message) (v : retval) :
  (∀ self w,
     MQTT.callback self = Some cb →
     out (MQTT.send self data w) = Return v →
     ∃ l, v = Many l ∧ stops_at_first cb l)
  ∧ (∀ self w,
       WebSocket.callback self = Some cb →
       out (WebSocket.send self data w) = Return v →
       ∃ l, v = Many l ∧ stops_at_first cb l).
Proof.
  split; intros self w Hcb.
  - unfold MQTT.send. destruct (MQTT.client self); [|discriminate].
    destruct (MQTT.publish_error w); [discriminate|].
    rewrite Hcb. simpl. intros Hret.
    eapply (poll_stream_returns cb _ _ _ []); [by constructor|].
    rewrite <- Hret. apply surjective_pairing.
  - unfold WebSocket.send. destruct (WebSocket.ws self); [|discriminate].
    destruct (WebSocket.send_error w); [discriminate|].
    rewrite Hcb. simpl. by apply recv_stream_returns.
Qed.

Lemma stream_stops_at_first_final_witness :
  stops_at_first Sample.is_done
    [Sample.chunk "a"; Sample.chunk "b"; Sample.final].
Proof.
  destruct (stream_stops_at_first_final Sample.is_done Sample.question
              (Many [Sample.chunk "a"; Sample.chunk "b"; Sample.final]))
    as [Hmqtt Hws].
  destruct (Hmqtt (Sample.mqtt_up (Some Sample.is_done)) Sample.three_polls)
    as (l & Hl & Hstop); [reflexivity | vm_compute; reflexivity |].
  destruct (Hws (Sample.ws_up (Some Sample.is_done)) Sample.three_frames)
    as (l' & Hl' & _); [reflexivity | vm_compute; reflexivity |].
  injection Hl as <-. exact Hstop.
Defined.

(** C5, as the code has it.  Over publish/subscribe and over the socket,
    [send] on an object that was never connected, or that was closed,
    raises the not-connected [ConnectionError]; the object is unchanged
    and nothing is sent.  The HTTP [send] is a generator function: the
    call itself raises nothing, whatever the object; the not-connected
    error is raised when the generator is advanced, if the object is not
    connected at that moment, before anything is requested or yielded. *)
Theorem send_when_down_fails (data : Message) :
  (∀ self w, mqtt_down self →
     MQTT.send self data w = Result (Raise not_connected) self [])
  ∧ (∀ self w, ws_down self →
       WebSocket.send self data w = Result (Raise not_connected) self [])
  ∧ (∀ self, ∃ g, HTTP.send self data = inr g)
  ∧ (∀ self g w, http_down self →
       HTTP.iterate self g w = HTTP.Run [] (HTTP.Raised not_connected) []).
Proof.
  split; [|split; [|split]].
  - intros self w Hdown. unfold MQTT.send.
    by rewrite (mqtt_down_no_client _ Hdown).
  - intros self w Hdown. unfold WebSocket.send.
    by rewrite (ws_down_no_socket _ Hdown).
  - intros self. by eexists.
  - intros self g w Hdown. unfold HTTP.iterate.
    by rewrite (http_down_no_client _ Hdown).
Qed.

Lemma send_when_down_fails_witness :
  out (MQTT.send (Sample.mqtt_new None) Sample.question Sample.three_polls)
    = Raise not_connected
  ∧ WebSocket.send (post (WebSocket.close (Sample.ws_up None)))
      Sample.question Sample.three_frames
    = Result (Raise not_connected)
        (post (WebSocket.close (Sample.ws_up None))) []
  ∧ HTTP.finish
      (HTTP.iterate (post (HTTP.close (Sample.http_up None)))
         {| HTTP.gen_data := Sample.question |} Sample.stalled_body)
    = HTTP.Raised not_connected.
Proof.
  destruct (send_when_down_fails Sample.question)
    as (Hmqtt & Hws & _ & Hhttp).
  split; [|split].
  - rewrite (Hmqtt (Sample.mqtt_new None) Sample.three_polls); [reflexivity|].
    apply mqtt_never_connected.
  - apply Hws. apply ws_closed.
  - rewrite Hhttp; [reflexivity|]. apply http_closed.
Defined.

(** The claim of C5 fails on HTTP: on an object that was never connected
    the call of [send] does not raise the not-connected error; it returns
    a generator. *)
Lemma http_send_call_raises_nothing :
  http_down (Sample.http_new None)
  ∧ HTTP.send (Sample.http_new None) Sample.question ≠ inl not_connected.
Proof.
  split; [|discriminate].
  apply (http_never_connected None (Some "http://127.0.0.1:8000") "/chat" 30).
  reflexivity.
Qed.

(** C6.  A turn of the streaming loop pops the message and asks the
    predicate before it reads the clock: when the message at the head of
    the buffer is final, the loop returns all it has collected, that
    message last, although the clock of that turn is past the deadline. *)
Theorem final_message_beats_deadline
    (self : MQTT.t) (cb : Message → bool) (start : Z)
    (results : list Message) (tk : MQTT.tick) (ticks : list MQTT.tick)
    (m : Message) (ms : list Message) :
  MQTT.messages self ++ MQTT.arrivals tk = m :: ms →
  cb m = true →
  MQTT.timed_out self start tk = true →
  MQTT.poll_stream self cb start results (tk :: ticks)
    = (Return (Many (results ++ [m])),
       MQTT.set_messages (MQTT.deliver self (MQTT.arrivals tk)) ms).
Proof.
  intros Hbuf Hm _. simpl.
  rewrite <- messages_deliver in Hbuf. by rewrite Hbuf, Hm.
Qed.

Lemma final_message_beats_deadline_witness :
  MQTT.timed_out (Sample.mqtt_up (Some Sample.is_done)) 100
    {| MQTT.arrivals := [Sample.final]; MQTT.now := 131 |} = true
  ∧ fst (MQTT.poll_stream (Sample.mqtt_up (Some Sample.is_done))
           Sample.is_done 100 [Sample.chunk "a"]
           [{| MQTT.arrivals := [Sample.final]; MQTT.now := 131 |}])
    = Return (Many [Sample.chunk "a"; Sample.final]).
Proof.
  split; [reflexivity|].
  rewrite (final_message_beats_deadline
             (Sample.mqtt_up (Some Sample.is_done)) Sample.is_done 100
             [Sample.chunk "a"]
             {| MQTT.arrivals := [Sample.final]; MQTT.now := 131 |} []
             Sample.final []); reflexivity.
Defined.

(** The same through [send]: the final message and the deadline meet on
    the second poll, and the call returns both messages. *)
Example photo_finish_returns :
  out (MQTT.send (Sample.mqtt_up (Some Sample.is_done)) Sample.question
         Sample.photo_finish)
  = Return (Many [Sample.chunk "a"; Sample.final]).
Proof. vm_compute. reflexivity. Qed.

(** The clock is read on every turn that does not return, also on one that
    popped a message: a final message further back in the buffer does not
    save the call. *)
Example final_behind_chunk_times_out :
  out (MQTT.send (Sample.mqtt_up (Some Sample.is_done)) Sample.question
         {| MQTT.publish_error := None; MQTT.start := 100;
            MQTT.ticks :=
              [{| MQTT.arrivals := [Sample.chunk "a"; Sample.final];
                  MQTT.now := 131 |}] |})
  = Raise MQTT.timeout_error.
Proof. vm_compute. reflexivity. Qed.







(** C2, as the code has it.  Without a predicate, [send] over
    publish/subscribe or over the socket that ends has returned one
    dictionary or raised, and over publish/subscribe it ends once a poll
    finds the clock past the deadline; on the socket it is still waiting
    only while no frame has come.  The HTTP [send] has no such mode: it is
    a generator whatever [ended] is, and with [ended] being [None] it
    yields nothing, or one message and then the [TypeError] of calling
    [None]. *)
Theorem reply_without_predicate (data : Message) :
  (∀ self w,
     MQTT.callback self = None →
     (finished (out (MQTT.send self data w)) →
      single_reply (out (MQTT.send self data w)))
     ∧ ((∃ tk, tk ∈ MQTT.ticks w
              ∧ (MQTT.timeout self < MQTT.now tk - MQTT.start w)%Z) →
        finished (out (MQTT.send self data w))))
  ∧ (∀ self w,
       WebSocket.callback self = None →
       (finished (out (WebSocket.send self data w)) →
        single_reply (out (WebSocket.send self data w)))
       ∧ (out (WebSocket.send self data w) = Waiting →
          WebSocket.inbound w = []))
  ∧ (∀ self w,
       HTTP.ended self = None →
       HTTP.yielded (HTTP.stream self data w) = []
       ∨ ∃ m, HTTP.yielded (HTTP.stream self data w) = [m]
              ∧ HTTP.finish (HTTP.stream self data w)
                = HTTP.Raised HTTP.not_callable).
Proof.
  split; [|split]; intros self w Hnone.
  - unfold MQTT.send, finished, single_reply.
    destruct (MQTT.client self) as [c|] eqn:Hc; [|by eauto].
    destruct (MQTT.publish_error w) as [msg|]; [by split; eauto|].
    rewrite Hnone. simpl. split.
    + destruct (poll_single_outcome (MQTT.start w) (MQTT.ticks w) self)
        as [[m ->]|[->| ->]]; by eauto.
    + intros (tk & (before & after & Hsplit)%list_elem_of_split & Hlate).
      rewrite Hsplit.
      assert (MQTT.timed_out self (MQTT.start w) tk = true) as Hout
        by (by apply Z.gtb_lt).
      destruct (poll_single_deadline (MQTT.start w) tk after before self Hout)
        as [Hend Hsame].
      by rewrite Hsame.
  - unfold WebSocket.send, finished.
    destruct (WebSocket.ws self); [|split; [unfold single_reply; by eauto|done]].
    destruct (WebSocket.send_error w);
      [split; [unfold single_reply; by eauto|done]|].
    rewrite Hnone. simpl.
    destruct (recv_single_outcome (WebSocket.inbound w)) as [H|[H1 H2]].
    + split; [done|]. intros Hw. rewrite Hw in H.
      by destruct H as [[m ?]|[e ?]].
    + split; [by rewrite H1|done].
  - unfold_stream. destruct (HTTP.client self); [|by left].
    destruct (HTTP.opening w); [by left|].
    destruct (HTTP.bad_status w); [by left|]. simpl.
    destruct (iter_lines_without_predicate self (HTTP.body w) Hnone)
      as [H|[m H]]; [by left|].
    right. exists m. by rewrite H.
Qed.

Lemma reply_without_predicate_witness :
  single_reply
    (out (MQTT.send (Sample.mqtt_up None) Sample.question
            {| MQTT.publish_error := None; MQTT.start := 100;
               MQTT.ticks := [{| MQTT.arrivals := [Sample.answer];
                                 MQTT.now := 100 |}] |}))
  ∧ finished (out (MQTT.send (Sample.mqtt_up None) Sample.question
                     {| MQTT.publish_error := None; MQTT.start := 100;
                        MQTT.ticks := [{| MQTT.arrivals := [];
                                          MQTT.now := 131 |}] |}))
  ∧ single_reply
      (out (WebSocket.send (Sample.ws_up None) Sample.question
              Sample.three_frames))
  ∧ HTTP.yielded (HTTP.stream (Sample.http_up None) Sample.question
                    Sample.stalled_body) = [Sample.chunk "a"].
Proof.
  destruct (reply_without_predicate Sample.question)
    as (Hmqtt & Hws & Hhttp).
  split; [|split; [|split]].
  - apply Hmqtt; [reflexivity|]. unfold finished. vm_compute. discriminate.
  - apply Hmqtt; [reflexivity|].
    exists {| MQTT.arrivals := []; MQTT.now := 131 |}. split.
    + apply list_elem_of_here.
    + vm_compute. reflexivity.
  - apply Hws; [reflexivity|]. unfold finished. vm_compute. discriminate.
  - destruct (Hhttp (Sample.http_up None) Sample.stalled_body)
      as [H|[m [H _]]]; [reflexivity| |]; vm_compute; reflexivity.
Defined.

(** The claim of C2 fails on HTTP: with [ended] being [None] and a
    response whose body is empty, the generator yields no message and ends
    without an exception. *)
Lemma http_without_predicate_may_yield_nothing :
  HTTP.ended (Sample.http_up None) = None
  ∧ ¬ single_reply_run
        (HTTP.stream (Sample.http_up None) Sample.question Sample.empty_body).
Proof.
  split; [reflexivity|]. intros [[m [H _]]|[e H]]; discriminate.
Qed.

(** The scenario of the specification: one message appended at once is
    returned by the first poll. *)
Example answer_on_first_poll :
  out (MQTT.send (Sample.mqtt_up None) Sample.question
         {| MQTT.publish_error := None; MQTT.start := 100;
            MQTT.ticks := [{| MQTT.arrivals := [Sample.answer];
                              MQTT.now := 100 |}] |})
  = Return (One Sample.answer).
Proof. vm_compute. reflexivity. Qed.

(** ** Properties of [connect], [close] and the HTTP constructor *)

(** C7, as the code has it.  [close] on the publish/subscribe variant
    returns without an exception; on an object that holds a client it
    stops the listener loop and disconnects, and the client handle is
    cleared; nothing else of the object changes, the message buffer
    included: what the listener appended and no [send] consumed is still
    there afterwards. *)
Theorem close_keeps_buffer (self : MQTT.t) :
  out (MQTT.close self) = Return RNone
  ∧ calls (MQTT.close self)
    = match MQTT.client self with
      | Some _ => [MQTT.LoopStop; MQTT.Disconnect]
      | None => []
      end
  ∧ post (MQTT.close self) = MQTT.set_client self None
  ∧ MQTT.client (post (MQTT.close self)) = None
  ∧ MQTT.messages (post (MQTT.close self)) = MQTT.messages self.
Proof.
  unfold MQTT.close. destruct (MQTT.client self) eqn:Hc; simpl;
    repeat split; try done.
  destruct self. simpl in Hc. by rewrite Hc.
Qed.

(** The claim of C7 fails: closing a connected object that holds one
    unread message leaves that message in the buffer. *)
Lemma close_leaves_unread_message :
  is_Some (MQTT.client Sample.mqtt_stale)
  ∧ MQTT.client (post (MQTT.close Sample.mqtt_stale)) = None
  ∧ MQTT.messages (post (MQTT.close Sample.mqtt_stale)) ≠ [].
Proof. split; [by eexists|]. split; [reflexivity|]. discriminate. Qed.

(** C8, as the code has it.  [connect] does not look at the connection it
    may already hold.  It raises what the library raises and nothing
    else, and makes the calls of a first [connect], none of which closes
    the old handle.  When the library fails before the handle is assigned
    (in every failure of the socket and HTTP variants, in the client
    constructor over publish/subscribe) the object is left as it was;
    in every other case it is left as a first [connect] would leave it. *)
Theorem connect_ignores_connection :
  (∀ (self : MQTT.t) (f : option MQTT.failure),
     out (MQTT.connect self f)
       = match f with
         | None => Return RNone
         | Some x => Raise (MQTT.raised x)
         end
     ∧ calls (MQTT.connect self f)
       = calls (MQTT.connect (MQTT.set_client self None) f)
     ∧ (∀ e, f = Some (MQTT.AtClient e) → post (MQTT.connect self f) = self)
     ∧ ((∀ e, f ≠ Some (MQTT.AtClient e)) →
        MQTT.connect self f
        = MQTT.connect (MQTT.set_client self None) f))
  ∧ (∀ (self : WebSocket.t) (failure : option exn),
       out (WebSocket.connect self failure)
         = match failure with None => Return RNone | Some e => Raise e end
       ∧ calls (WebSocket.connect self failure)
         = calls (WebSocket.connect (WebSocket.set_ws self None) failure)
       ∧ (∀ e, failure = Some e →
               post (WebSocket.connect self failure) = self)
       ∧ WebSocket.connect self None
         = WebSocket.connect (WebSocket.set_ws self None) None)
  ∧ (∀ (self : HTTP.t) (failure : option exn),
       out (HTTP.connect self failure)
         = match failure with None => Return RNone | Some e => Raise e end
       ∧ calls (HTTP.connect self failure)
         = calls (HTTP.connect (HTTP.set_client self None) failure)
       ∧ (∀ e, failure = Some e → post (HTTP.connect self failure) = self)
       ∧ HTTP.connect self None
         = HTTP.connect (HTTP.set_client self None) None).
Proof.
  split; [|split]; intros self f.
  - unfold MQTT.connect. destruct f as [[e|e|e|e]|]; simpl;
      repeat split; try done; try (by intros e' [= <-]);
      try discriminate.
    intros Hne. by destruct (Hne e).
  - unfold WebSocket.connect. by destruct f; simpl; repeat split.
  - unfold HTTP.connect. by destruct f; simpl; repeat split.
Qed.

Lemma connect_ignores_connection_witness :
  post (MQTT.connect (Sample.mqtt_up None)
          (Some (MQTT.AtClient (ValueError "Unsupported callback API version"))))
    = Sample.mqtt_up None
  ∧ MQTT.connect (Sample.mqtt_up None) None
    = MQTT.connect (MQTT.set_client (Sample.mqtt_up None) None) None
  ∧ post (HTTP.connect (Sample.http_up None)
            (Some (LibraryError "InvalidURL")))
    = Sample.http_up None.
Proof.
  destruct connect_ignores_connection as (Hmqtt & _ & Hhttp).
  split; [|split].
  - destruct (Hmqtt (Sample.mqtt_up None)
                (Some (MQTT.AtClient
                         (ValueError "Unsupported callback API version"))))
      as (_ & _ & Hkept & _).
    by eapply Hkept.
  - destruct (Hmqtt (Sample.mqtt_up None) None) as (_ & _ & _ & Hsame).
    apply Hsame. discriminate.
  - destruct (Hhttp (Sample.http_up None) (Some (LibraryError "InvalidURL")))
      as (_ & _ & Hkept & _).
    by eapply Hkept.
Defined.

(** The claim of C8 fails on every variant: [connect] on a connected
    object, the server being reachable, returns without an exception. *)
Lemma connect_when_connected_is_no_error :
  (is_Some (MQTT.client (Sample.mqtt_up None))
   ∧ ¬ is_error (out (MQTT.connect (Sample.mqtt_up None) None)))
  ∧ (is_Some (WebSocket.ws (Sample.ws_up None))
     ∧ ¬ is_error (out (WebSocket.connect (Sample.ws_up None) None)))
  ∧ (is_Some (HTTP.client (Sample.http_up None))
     ∧ ¬ is_error (out (HTTP.connect (Sample.http_up None) None))).
Proof.
  repeat split; try (by eexists); intros [e He]; discriminate.
Qed.

(** C9.  On every variant, [close] on an object that was never connected,
    or that was closed, returns without an exception, changes nothing and
    touches no handle; so the second of two [close] calls in a row does
    nothing. *)
Theorem close_when_down_is_noop :
  (∀ self, mqtt_down self →
     MQTT.close self = Result (Return RNone) self [])
  ∧ (∀ self, ws_down self →
       WebSocket.close self = Result (Return RNone) self [])
  ∧ (∀ self, http_down self →
       HTTP.close self = Result (Return RNone) self []).
Proof.
  split; [|split]; intros self Hdown.
  - unfold MQTT.close. by rewrite (mqtt_down_no_client _ Hdown).
  - unfold WebSocket.close. by rewrite (ws_down_no_socket _ Hdown).
  - unfold HTTP.close. by rewrite (http_down_no_client _ Hdown).
Qed.

Lemma close_when_down_is_noop_witness :
  MQTT.close (post (MQTT.close (Sample.mqtt_up None)))
    = Result (Return RNone) (post (MQTT.close (Sample.mqtt_up None))) []
  ∧ WebSocket.close (Sample.ws_new None)
    = Result (Return RNone) (Sample.ws_new None) []
  ∧ HTTP.close (post (HTTP.close (Sample.http_up None)))
    = Result (Return RNone) (post (HTTP.close (Sample.http_up None))) [].
Proof.
  destruct close_when_down_is_noop as (Hmqtt & Hws & Hhttp).
  split; [|split].
  - apply Hmqtt. apply mqtt_closed.
  - apply Hws. apply ws_never_connected.
  - apply Hhttp. apply http_closed.
Defined.

(** The first [close] of a connected object is the one that acts. *)
Example first_close_acts :
  MQTT.close (Sample.mqtt_up None)
  = Result (Return RNone) (Sample.mqtt_new None)
      [MQTT.LoopStop; MQTT.Disconnect].
Proof. reflexivity. Qed.

(** C10.  The HTTP constructor checks its arguments in this order: a
    [base_url] of [None] raises [TypeError]; otherwise a [timeout] of zero
    or less raises [ValueError]; otherwise the four arguments are stored as
    given and the object has no client. *)
Theorem http_init_validates
    (ended : option (Message → bool)) (base_url : option string)
    (endpoint : string) (timeout : Z) :
  (base_url = None →
   HTTP.init ended base_url endpoint timeout
   = inl (TypeError "服务器地址不能为空"))
  ∧ (is_Some base_url → (timeout ≤ 0)%Z →
     HTTP.init ended base_url endpoint timeout
     = inl (ValueError "超时时间必须是非零的正整数"))
  ∧ (is_Some base_url → (0 < timeout)%Z →
     ∃ self,
       HTTP.init ended base_url endpoint timeout = inr self
       ∧ HTTP.base_url self = base_url
       ∧ HTTP.endpoint self = endpoint
       ∧ HTTP.timeout self = timeout
       ∧ HTTP.ended self = ended
       ∧ HTTP.client self = None).
Proof.
  unfold HTTP.init. split; [|split].
  - by intros ->.
  - intros [u ->] Hle. by rewrite (proj2 (Z.leb_le timeout 0) Hle).
  - intros [u ->] Hlt.
    rewrite (proj2 (Z.leb_gt timeout 0) Hlt). by eexists.
Qed.

Lemma http_init_validates_witness :
  HTTP.init (Some Sample.is_done) None "/chat" 30
    = inl (TypeError "服务器地址不能为空")
  ∧ HTTP.init (Some Sample.is_done) (Some "http://127.0.0.1:8000") "/chat" 0
    = inl (ValueError "超时时间必须是非零的正整数")
  ∧ HTTP.init (Some Sample.is_done) (Some "http://127.0.0.1:8000") "/chat" 30
    = inr (Sample.http_new (Some Sample.is_done)).
Proof.
  split; [|split].
  - apply (http_init_validates (Some Sample.is_done) None "/chat" 30).
    reflexivity.
  - apply (http_init_validates (Some Sample.is_done)
             (Some "http://127.0.0.1:8000") "/chat" 0); [by eexists | lia].
  - destruct (http_init_validates (Some Sample.is_done)
                (Some "http://127.0.0.1:8000") "/chat" 30)
      as (_ & _ & Hok).
    destruct Hok as (self & Hinit & _); [by eexists | lia |].
    reflexivity.
Defined.

(** ** What the polling loops do with the buffer *)

Section MqttBuffer.

Import MQTT.

Lemma deliver_eq self ms :
  deliver self ms = set_messages self (messages self ++ ms).
Proof.
  revert self. induction ms as [|m ms IH]; intros self; simpl.
  - destruct self. unfold set_messages. simpl. by rewrite app_nil_r.
  - rewrite IH. unfold _on_message, set_messages. simpl.
    by rewrite <- app_assoc.
Qed.

Lemma poll_single_returns start ticks : ∀ self v self',
  poll_single self start ticks = (Return v, self') →
  ∃ m before tk rest,
    v = One m ∧ ticks = before ++ tk :: rest ∧
    messages self ++ concat (arrivals <$> before ++ [tk])
      = m :: messages self'.
Proof.
  induction ticks as [|tk ticks IH]; intros self v self'; simpl;
    [discriminate|].
  pose proof (messages_deliver self (arrivals tk)) as Hd.
  destruct (messages (deliver self (arrivals tk))) as [|m ms] eqn:Hbuf.
  - destruct (timed_out _ start tk); [discriminate|]. intros H.
    destruct (IH _ _ _ H) as (m & before & tk' & rest & -> & -> & Heq).
    exists m, (tk :: before), tk', rest. repeat split.
    rewrite Hbuf in Heq. simpl. by rewrite app_assoc, <- Hd.
  - intros [= <- <-]. exists m, [], tk, ticks. repeat split.
    simpl. by rewrite app_nil_r, <- Hd.
Qed.

Lemma poll_stream_conserves cb start ticks : ∀ self results l self',
  poll_stream self cb start results ticks = (Return (Many l), self') →
  ∃ popped before tk rest,
    l = results ++ popped ∧ ticks = before ++ tk :: rest ∧
    messages self ++ concat (arrivals <$> before ++ [tk])
      = popped ++ messages self'.
Proof.
  induction ticks as [|tk ticks IH]; intros self results l self'; simpl;
    [discriminate|].
  pose proof (messages_deliver self (arrivals tk)) as Hd.
  destruct (messages (deliver self (arrivals tk))) as [|m ms] eqn:Hbuf.
  - destruct (timed_out _ start tk); [discriminate|]. intros H.
    destruct (IH _ _ _ _ H) as (popped & before & tk' & rest & -> & -> & Heq).
    exists popped, (tk :: before), tk', rest. repeat split.
    rewrite Hbuf in Heq. simpl. by rewrite app_assoc, <- Hd.
  - destruct (cb m).
    + intros [= <- <-]. exists [m], [], tk, ticks. repeat split.
      simpl. by rewrite app_nil_r, <- Hd.
    + destruct (timed_out _ start tk); [discriminate|]. intros H.
      destruct (IH _ _ _ _ H)
        as (popped & before & tk' & rest & -> & -> & Heq).
      exists (m :: popped), (tk :: before), tk', rest. repeat split.
      * by rewrite <- app_assoc.
      * simpl in *. by rewrite app_assoc, <- Hd, <- Heq.
Qed.

Lemma poll_single_raises start ticks : ∀ self e self',
  poll_single self start ticks = (Raise e, self') →
  e = timeout_error ∧ self' = self ∧ messages self = [] ∧
  ∃ before tk rest,
    ticks = before ++ tk :: rest ∧
    timed_out self start tk = true ∧
    Forall (λ t, arrivals t = []) (before ++ [tk]).
Proof.
  induction ticks as [|tk ticks IH]; intros self e self'; simpl;
    [discriminate|].
  pose proof (messages_deliver self (arrivals tk)) as Hd.
  destruct (messages (deliver self (arrivals tk))) as [|m ms] eqn:Hbuf;
    [|discriminate].
  symmetry in Hd. apply app_eq_nil in Hd as [Hself Harr].
  rewrite Harr. simpl.
  destruct (timed_out self start tk) eqn:Hout.
  - intros [= <- <-]. repeat split; [done|].
    exists [], tk, ticks. repeat split; [done|]. by constructor.
  - intros H. destruct (IH _ _ _ H)
      as (-> & -> & _ & before & tk' & rest & -> & Hlate & Hnone).
    repeat split; [done|].
    exists (tk :: before), tk', rest. repeat split; [done|].
    simpl. by constructor.
Qed.

(** With an empty buffer and nothing arriving, both loops go on while the
    clock is inside the deadline and raise at the first poll past it. *)
Lemma poll_single_silence start tk rest : ∀ before self,
  messages self = [] →
  Forall (λ t, arrivals t = [] ∧ timed_out self start t = false) before →
  arrivals tk = [] → timed_out self start tk = true →
  poll_single self start (before ++ tk :: rest) = (Raise timeout_error, self).
Proof.
  induction before as [|b before IH]; intros self Hempty Hbefore Harr Hout;
    simpl.
  - by rewrite Harr; simpl; rewrite Hempty, Hout.
  - apply Forall_cons in Hbefore as [[Hb Hin] Hbefore].
    rewrite Hb. simpl. rewrite Hempty, Hin. by apply IH.
Qed.

Lemma poll_stream_silence cb start tk rest : ∀ before self results,
  messages self = [] →
  Forall (λ t, arrivals t = [] ∧ timed_out self start t = false) before →
  arrivals tk = [] → timed_out self start tk = true →
  poll_stream self cb start results (before ++ tk :: rest)
    = (Raise timeout_error, self).
Proof.
  induction before as [|b before IH];
    intros self results Hempty Hbefore Harr Hout; simpl.
  - by rewrite Harr; simpl; rewrite Hempty, Hout.
  - apply Forall_cons in Hbefore as [[Hb Hin] Hbefore].
    rewrite Hb. simpl. rewrite Hempty, Hin. by apply IH.
Qed.

(** The loops touch nothing of the object but the buffer. *)
Lemma poll_single_frame start ticks : ∀ self,
  snd (poll_single self start ticks)
    = set_messages self (messages (snd (poll_single self start ticks))).
Proof.
  induction ticks as [|tk ticks IH]; intros self; simpl.
  - by destruct self.
  - rewrite deliver_eq. simpl.
    destruct (messages self ++ arrivals tk) as [|m ms]; [|done].
    destruct (timed_out _ start tk); [done|].
    rewrite IH at 1. done.
Qed.

Lemma poll_stream_frame cb start ticks : ∀ self results,
  snd (poll_stream self cb start results ticks)
    = set_messages self
        (messages (snd (poll_stream self cb start results ticks))).
Proof.
  induction ticks as [|tk ticks IH]; intros self results; simpl.
  - by destruct self.
  - rewrite deliver_eq. simpl.
    destruct (messages self ++ arrivals tk) as [|m ms].
    + destruct (timed_out _ start tk); [done|]. rewrite IH at 1. done.
    + destruct (cb m); [done|].
      destruct (timed_out _ start tk); [done|]. rewrite IH at 1. done.
Qed.

End MqttBuffer.

(** ** Further properties of MQTT.send *)

(** X1.  Without a predicate, the dictionary [send] returns is the oldest
    one there is: the head of what the buffer held followed by what the
    listener appended up to the poll [tk] that returned; all the rest stays
    in the buffer, in order. *)
Theorem single_reply_is_oldest
    (self : MQTT.t) (data : Message) (w : MQTT.world) (v : retval) :
  MQTT.callback self = None →
  out (MQTT.send self data w) = Return v →
  ∃ m before tk rest,
    v = One m
    ∧ MQTT.ticks w = before ++ tk :: rest
    ∧ MQTT.messages self ++ concat (MQTT.arrivals <$> before ++ [tk])
      = m :: MQTT.messages (post (MQTT.send self data w)).
Proof.
  intros Hnone. unfold MQTT.send.
  destruct (MQTT.client self); [|discriminate].
  destruct (MQTT.publish_error w); [discriminate|]. rewrite Hnone. simpl.
  intros Hret. eapply poll_single_returns.
  rewrite <- Hret. apply surjective_pairing.
Qed.

Lemma single_reply_is_oldest_witness :
  ∃ m before tk rest,
    One Sample.answer = One m
    ∧ [ {| MQTT.arrivals := []; MQTT.now := 101 |};
        {| MQTT.arrivals := [Sample.answer; Sample.final];
           MQTT.now := 102 |} ] = before ++ tk :: rest
    ∧ [] ++ concat (MQTT.arrivals <$> before ++ [tk])
      = m :: MQTT.messages
               (post (MQTT.send (Sample.mqtt_up None) Sample.question
                  {| MQTT.publish_error := None; MQTT.start := 100;
                     MQTT.ticks :=
                       [ {| MQTT.arrivals := []; MQTT.now := 101 |};
                         {| MQTT.arrivals := [Sample.answer; Sample.final];
                            MQTT.now := 102 |} ] |})).
Proof.
  apply (single_reply_is_oldest (Sample.mqtt_up None) Sample.question
           {| MQTT.publish_error := None; MQTT.start := 100;
              MQTT.ticks :=
                [ {| MQTT.arrivals := []; MQTT.now := 101 |};
                  {| MQTT.arrivals := [Sample.answer; Sample.final];
                     MQTT.now := 102 |} ] |}
           (One Sample.answer)); [reflexivity | vm_compute; reflexivity].
Defined.

(** X2.  With a predicate, the list [send] returns is, in order, exactly
    the first messages of the buffer followed by the arrivals up to the
    poll that returned: nothing is skipped, repeated or reordered, and
    what came after the final message stays in the buffer. *)
Theorem stream_reply_is_prefix
    (self : MQTT.t) (cb : Message → bool) (data : Message) (w : MQTT.world)
    (l : list Message) :
  MQTT.callback self = Some cb →
  out (MQTT.send self data w) = Return (Many l) →
  ∃ before tk rest,
    MQTT.ticks w = before ++ tk :: rest
    ∧ MQTT.messages self ++ concat (MQTT.arrivals <$> before ++ [tk])
      = l ++ MQTT.messages (post (MQTT.send self data w)).
Proof.
  intros Hcb. unfold MQTT.send.
  destruct (MQTT.client self); [|discriminate].
  destruct (MQTT.publish_error w); [discriminate|]. rewrite Hcb. simpl.
  intros Hret.
  destruct (poll_stream_conserves cb (MQTT.start w) (MQTT.ticks w) self [] l
              (snd (MQTT.poll_stream self cb (MQTT.start w) []
                      (MQTT.ticks w))))
    as (popped & before & tk & rest & -> & Hsplit & Heq).
  { rewrite <- Hret. apply surjective_pairing. }
  by exists before, tk, rest.
Qed.

Lemma stream_reply_is_prefix_witness :
  ∃ before tk rest,
    MQTT.ticks Sample.three_polls = before ++ tk :: rest
    ∧ [] ++ concat (MQTT.arrivals <$> before ++ [tk])
      = [Sample.chunk "a"; Sample.chunk "b"; Sample.final]
        ++ MQTT.messages
             (post (MQTT.send (Sample.mqtt_up (Some Sample.is_done))
                      Sample.question Sample.three_polls)).
Proof.
  apply (stream_reply_is_prefix (Sample.mqtt_up (Some Sample.is_done))
           Sample.is_done Sample.question Sample.three_polls);
    [reflexivity | vm_compute; reflexivity].
Defined.

(** X3.  Without a predicate, once the request has been published, [send]
    on a connected object raises only the [TimeoutError], and only if
    nothing at all was there to take: the buffer was empty, the listener
    appended nothing up to the poll that raised, that poll read a clock
    past the deadline, and the object is left as it was. *)
Theorem single_timeout_means_silence
    (self : MQTT.t) (data : Message) (w : MQTT.world) (e : exn) :
  is_Some (MQTT.client self) →
  MQTT.publish_error w = None →
  MQTT.callback self = None →
  out (MQTT.send self data w) = Raise e →
  e = MQTT.timeout_error
  ∧ post (MQTT.send self data w) = self
  ∧ MQTT.messages self = []
  ∧ ∃ before tk rest,
      MQTT.ticks w = before ++ tk :: rest
      ∧ (MQTT.timeout self < MQTT.now tk - MQTT.start w)%Z
      ∧ Forall (λ t, MQTT.arrivals t = []) (before ++ [tk]).
Proof.
  intros [c Hc] Hpub Hnone. unfold MQTT.send. rewrite Hc, Hpub, Hnone.
  simpl. intros Hraise.
  destruct (poll_single_raises (MQTT.start w) (MQTT.ticks w) self e
              (snd (MQTT.poll_single self (MQTT.start w) (MQTT.ticks w))))
    as (-> & Hpost & Hempty & before & tk & rest & Hsplit & Hlate & Hnone').
  { rewrite <- Hraise. apply surjective_pairing. }
  repeat split; [done..|].
  exists before, tk, rest. repeat split; [done| |done].
  by apply Z.gtb_lt.
Qed.

Lemma single_timeout_means_silence_witness :
  post (MQTT.send (Sample.mqtt_up None) Sample.question
          {| MQTT.publish_error := None; MQTT.start := 100;
             MQTT.ticks := [ {| MQTT.arrivals := []; MQTT.now := 120 |};
                             {| MQTT.arrivals := []; MQTT.now := 131 |} ] |})
  = Sample.mqtt_up None.
Proof.
  apply (single_timeout_means_silence (Sample.mqtt_up None) Sample.question
           {| MQTT.publish_error := None; MQTT.start := 100;
              MQTT.ticks := [ {| MQTT.arrivals := []; MQTT.now := 120 |};
                              {| MQTT.arrivals := []; MQTT.now := 131 |} ] |}
           MQTT.timeout_error);
    [by eexists | reflexivity | reflexivity | vm_compute; reflexivity].
Defined.

(** X4.  A connected object with an empty buffer, whose request the
    client accepts for publishing and to which nothing arrives, raises the
    [TimeoutError] at the first poll whose clock is past
    [start + timeout], not before, with or without a predicate; one
    request was published and the object is unchanged. *)
Theorem silence_times_out_at_first_late_poll
    (self : MQTT.t) (data : Message) (start : Z)
    (before : list MQTT.tick) (tk : MQTT.tick) (rest : list MQTT.tick) :
  is_Some (MQTT.client self) →
  MQTT.messages self = [] →
  Forall (λ t, MQTT.arrivals t = []
               ∧ (MQTT.now t - start ≤ MQTT.timeout self)%Z) before →
  MQTT.arrivals tk = [] →
  (MQTT.timeout self < MQTT.now tk - start)%Z →
  MQTT.send self data
    {| MQTT.publish_error := None; MQTT.start := start; MQTT.ticks := before ++ tk :: rest |}
  = Result (Raise MQTT.timeout_error) self
      [MQTT.Publish (MQTT.request_topic self) data]
  ∧ out (MQTT.send self data
           {| MQTT.publish_error := None; MQTT.start := start; MQTT.ticks := before |}) = Waiting.
Proof.
  intros [c Hc] Hempty Hbefore Harr Hlate.
  assert (MQTT.timed_out self start tk = true) as Hout
    by (by apply Z.gtb_lt).
  assert (Forall (λ t, MQTT.arrivals t = []
                       ∧ MQTT.timed_out self start t = false) before)
    as Hbefore'.
  { eapply Forall_impl; [exact Hbefore|]. intros t [Ht Hin]. split; [done|].
    unfold MQTT.timed_out.
    destruct (MQTT.now t - start >? MQTT.timeout self)%Z eqn:Hgt; [|done].
    apply Z.gtb_lt in Hgt. lia. }
  unfold MQTT.send. rewrite Hc. simpl. split.
  - destruct (MQTT.callback self) as [cb|].
    + by rewrite (poll_stream_silence cb start tk rest before self []).
    + by rewrite (poll_single_silence start tk rest before self).
  - clear Hbefore Harr Hlate Hout.
    induction before as [|b before IH]; simpl.
    + by destruct (MQTT.callback self).
    + apply Forall_cons in Hbefore' as [[Hb Hin] Hbefore'].
      specialize (IH Hbefore').
      destruct (MQTT.callback self) as [cb|]; simpl in *;
        by rewrite Hb; simpl; rewrite Hempty, Hin.
Qed.

Lemma silence_times_out_at_first_late_poll_witness :
  out (MQTT.send (Sample.mqtt_up (Some Sample.is_done)) Sample.question
         {| MQTT.publish_error := None; MQTT.start := 0;
            MQTT.ticks := [ {| MQTT.arrivals := []; MQTT.now := 10 |};
                            {| MQTT.arrivals := []; MQTT.now := 30 |};
                            {| MQTT.arrivals := []; MQTT.now := 31 |};
                            {| MQTT.arrivals := [Sample.final];
                               MQTT.now := 32 |} ] |})
  = Raise MQTT.timeout_error.
Proof.
  destruct (silence_times_out_at_first_late_poll
              (Sample.mqtt_up (Some Sample.is_done)) Sample.question 0
              [ {| MQTT.arrivals := []; MQTT.now := 10 |};
                {| MQTT.arrivals := []; MQTT.now := 30 |} ]
              {| MQTT.arrivals := []; MQTT.now := 31 |}
              [ {| MQTT.arrivals := [Sample.final]; MQTT.now := 32 |} ])
    as [Hraise _].
  - by eexists.
  - reflexivity.
  - repeat constructor; simpl; lia.
  - reflexivity.
  - simpl. lia.
  - simpl in Hraise. by rewrite Hraise.
Defined.

(** X5.  Whatever the world, [send] changes nothing of the object but the
    buffer: broker, topics, predicate, timeout and client handle are as
    before.  On a connected object it publishes the request once, to the
    request topic, and makes no other call. *)
Theorem send_touches_only_buffer
    (self : MQTT.t) (data : Message) (w : MQTT.world) :
  post (MQTT.send self data w)
    = MQTT.set_messages self (MQTT.messages (post (MQTT.send self data w)))
  ∧ calls (MQTT.send self data w)
    = match MQTT.client self with
      | Some _ => [MQTT.Publish (MQTT.request_topic self) data]
      | None => []
      end.
Proof.
  unfold MQTT.send. destruct (MQTT.client self) eqn:Hc; simpl.
  - destruct (MQTT.publish_error w); simpl; [split; [by destruct self|done]|].
    split; [|done]. destruct (MQTT.callback self) as [cb|].
    + apply poll_stream_frame.
    + apply poll_single_frame.
  - split; [|done]. by destruct self.
Qed.

(** X6.  A message left in the buffer outlives [close] and a new
    [connect], and the next [send] without predicate, once its request is
    published, returns it on its first poll, whatever that request goes
    on to bring in. *)
Theorem leftover_answers_after_reconnect
    (self : MQTT.t) (m : Message) (ms : list Message) (data : Message)
    (start : Z) (tk : MQTT.tick) (rest : list MQTT.tick) :
  MQTT.callback self = None →
  MQTT.messages self = m :: ms →
  let again := post (MQTT.connect (post (MQTT.close self)) None) in
  out (MQTT.send again data
         {| MQTT.publish_error := None; MQTT.start := start; MQTT.ticks := tk :: rest |})
    = Return (One m)
  ∧ MQTT.messages
      (post (MQTT.send again data
               {| MQTT.publish_error := None; MQTT.start := start; MQTT.ticks := tk :: rest |}))
    = ms ++ MQTT.arrivals tk.
Proof.
  intros Hnone Hbuf again.
  assert (MQTT.messages again = m :: ms ∧ MQTT.callback again = None)
    as [Hbuf' Hnone'].
  { unfold again, MQTT.close. by destruct (MQTT.client self). }
  unfold MQTT.send. simpl MQTT.client. cbv iota. rewrite Hnone'. simpl.
  pose proof (messages_deliver again (MQTT.arrivals tk)) as Hd.
  rewrite Hbuf' in Hd. simpl in Hd. by rewrite Hd.
Qed.

Lemma leftover_answers_after_reconnect_witness :
  out (MQTT.send
         (post (MQTT.connect (post (MQTT.close Sample.mqtt_stale)) None))
         Sample.question
         {| MQTT.publish_error := None; MQTT.start := 100;
            MQTT.ticks := [{| MQTT.arrivals := [Sample.final];
                              MQTT.now := 100 |}] |})
  = Return (One Sample.answer).
Proof.
  apply (leftover_answers_after_reconnect Sample.mqtt_stale Sample.answer []
           Sample.question 100
           {| MQTT.arrivals := [Sample.final]; MQTT.now := 100 |} []);
    reflexivity.
Defined.

(** X7.  When [client.connect] raises, [connect] lets the exception
    through with [self.client] already assigned: the object then counts as
    connected, and [send] publishes and polls instead of raising the
    not-connected error. *)
Theorem failed_connect_leaves_handle
    (self : MQTT.t) (e : exn) (data : Message) (w : MQTT.world) :
  let half := post (MQTT.connect self (Some (MQTT.AtConnect e))) in
  out (MQTT.connect self (Some (MQTT.AtConnect e))) = Raise e
  ∧ is_Some (MQTT.client half)
  ∧ calls (MQTT.send half data w)
    = [MQTT.Publish (MQTT.request_topic self) data]
  ∧ out (MQTT.send half data w) ≠ Raise not_connected.
Proof.
  simpl. split; [done|]. split; [by eexists|]. split.
  { unfold MQTT.send. simpl. by destruct (MQTT.publish_error w). }
  unfold MQTT.send. simpl.
  destruct (MQTT.publish_error w) as [msg|]; [discriminate|].
  destruct (MQTT.callback self) as [cb|]; simpl; intros H.
  - destruct (poll_stream_raises cb (MQTT.start w) (MQTT.ticks w)
                (MQTT.set_client self
                   (Some {| MQTT.of_client_id := MQTT.client_id self |}))
                [] not_connected
                (snd (MQTT.poll_stream
                        (MQTT.set_client self
                           (Some {| MQTT.of_client_id :=
                                      MQTT.client_id self |}))
                        cb (MQTT.start w) [] (MQTT.ticks w))))
      as [Habs _]; [|discriminate].
    rewrite <- H. apply surjective_pairing.
  - destruct (poll_single_raises (MQTT.start w) (MQTT.ticks w)
                (MQTT.set_client self
                   (Some {| MQTT.of_client_id := MQTT.client_id self |}))
                not_connected
                (snd (MQTT.poll_single
                        (MQTT.set_client self
                           (Some {| MQTT.of_client_id :=
                                      MQTT.client_id self |}))
                        (MQTT.start w) (MQTT.ticks w))))
      as [Habs _]; [|discriminate].
    rewrite <- H. apply surjective_pairing.
Qed.

(** X8.  On the socket a failed handshake assigns nothing: an object that
    was not connected is still not connected, and [send] keeps raising the
    not-connected error. *)
Theorem failed_handshake_stays_down
    (self : WebSocket.t) (e : exn) (data : Message) (w : WebSocket.world) :
  ws_down self →
  WebSocket.connect self (Some e)
    = Result (Raise e) self [WebSocket.Open (WebSocket.url self)]
  ∧ WebSocket.send (post (WebSocket.connect self (Some e))) data w
    = Result (Raise not_connected) self [].
Proof.
  intros Hdown. split; [done|]. simpl. unfold WebSocket.send.
  by rewrite (ws_down_no_socket _ Hdown).
Qed.

Lemma failed_handshake_stays_down_witness :
  WebSocket.send
    (post (WebSocket.connect (Sample.ws_new None)
             (Some (LibraryError "InvalidHandshake"))))
    Sample.question Sample.three_frames
  = Result (Raise not_connected) (Sample.ws_new None) [].
Proof.
  apply (failed_handshake_stays_down (Sample.ws_new None)
           (LibraryError "InvalidHandshake") Sample.question
           Sample.three_frames).
  apply ws_never_connected.
Defined.

(** ** Further properties of WebSocket.send *)

Lemma recv_stream_conserves cb inbound : ∀ results l,
  WebSocket.recv_stream cb results inbound = Return (Many l) →
  ∃ got rest,
    l = results ++ got ∧ inbound = (WebSocket.Text <$> got) ++ rest.
Proof.
  induction inbound as [|f inbound IH]; intros results l; simpl;
    [discriminate|].
  destruct f as [m| |e]; [|discriminate..].
  destruct (cb m).
  - intros [= <-]. by exists [m], inbound.
  - intros H. destruct (IH _ _ H) as (got & rest & -> & ->).
    exists (m :: got), rest. by rewrite <- app_assoc.
Qed.


(** X9.  What [send] returns over the socket is, in order, exactly the
    first frames the peer delivered: the first one without a predicate,
    the frames up to the first final one with a predicate.  The object is
    not changed. *)
Theorem socket_reply_is_prefix
    (self : WebSocket.t) (data : Message) (w : WebSocket.world)
    (v : retval) :
  out (WebSocket.send self data w) = Return v →
  post (WebSocket.send self data w) = self
  ∧ ∃ rest,
      WebSocket.inbound w
      = (WebSocket.Text <$> delivered (Return v)) ++ rest.
Proof.
  unfold WebSocket.send. destruct (WebSocket.ws self); [|discriminate].
  destruct (WebSocket.send_error w); [discriminate|]. simpl.
  intros Hret. split; [done|].
  destruct (WebSocket.callback self) as [cb|].
  - pose proof (recv_stream_returns cb (WebSocket.inbound w) [] v
                  (Forall_nil_2 _) Hret) as (l & -> & _).
    destruct (recv_stream_conserves cb _ _ _ Hret) as (got & rest & -> & ->).
    by exists rest.
  - destruct (WebSocket.inbound w) as [|[m| |e] rest]; try discriminate.
    injection Hret as <-. by exists rest.
Qed.

Lemma socket_reply_is_prefix_witness :
  ∃ rest,
    WebSocket.inbound Sample.three_frames
    = (WebSocket.Text <$> [Sample.chunk "a"]) ++ rest.
Proof.
  apply (socket_reply_is_prefix (Sample.ws_up None) Sample.question
           Sample.three_frames (One (Sample.chunk "a"))).
  vm_compute. reflexivity.
Defined.

(** X10.  When a streaming [send] over the socket raises after the
    request went out, the frames received until then, none of them final,
    are dropped with the local list: the exception is the one of the frame
    that failed (the socket's own, or the decoding error) and carries no
    message. *)
Theorem socket_failure_drops_frames
    (self : WebSocket.t) (cb : Message → bool) (data : Message)
    (w : WebSocket.world) (e : exn) :
  is_Some (WebSocket.ws self) →
  WebSocket.send_error w = None →
  WebSocket.callback self = Some cb →
  out (WebSocket.send self data w) = Raise e →
  delivered (out (WebSocket.send self data w)) = []
  ∧ ∃ got bad rest,
      WebSocket.inbound w = (WebSocket.Text <$> got) ++ bad :: rest
      ∧ Forall (λ x, cb x = false) got
      ∧ ((bad = WebSocket.Undecodable ∧ e = WebSocket.decode_error)
         ∨ bad = WebSocket.Broken e).
Proof.
  intros [c Hc] Hsend Hcb. unfold WebSocket.send.
  rewrite Hc, Hsend, Hcb. simpl. intros Hraise. rewrite Hraise.
  split; [done|]. by eapply recv_stream_raises.
Qed.

Lemma socket_failure_drops_frames_witness :
  delivered
    (out (WebSocket.send (Sample.ws_up (Some Sample.is_done))
            Sample.question
            {| WebSocket.send_error := None;
               WebSocket.inbound :=
                 [WebSocket.Text (Sample.chunk "a");
                  WebSocket.Broken (LibraryError "ConnectionClosed");
                  WebSocket.Text Sample.final] |})) = [].
Proof.
  apply (socket_failure_drops_frames (Sample.ws_up (Some Sample.is_done))
           Sample.is_done Sample.question
           {| WebSocket.send_error := None;
              WebSocket.inbound :=
                [WebSocket.Text (Sample.chunk "a");
                 WebSocket.Broken (LibraryError "ConnectionClosed");
                 WebSocket.Text Sample.final] |}
           (LibraryError "ConnectionClosed"));
    [by eexists | reflexivity | reflexivity | vm_compute; reflexivity].
Defined.

(** ** Further properties of HTTP.stream *)



Lemma iter_lines_final_last self f body : ∀ init m,
  HTTP.ended self = Some f →
  fst (HTTP.iter_lines self body) = init ++ [m] →
  Forall (λ x, f x = false) init.
Proof.
  intros init m Hf. revert init.
  induction body as [|l body IH]; intros init; simpl.
  - by destruct init.
  - destruct l as [|x| |e]; simpl.
    + apply IH.
    + rewrite Hf. destruct (f x) eqn:Hx; simpl.
      * destruct init as [|y [|z init]]; [by constructor|discriminate..].
      * destruct init as [|y init]; simpl.
        { intros _. by constructor. }
        intros [= <- Hrest]. constructor; [done|]. by apply IH.
    + by destruct init.
    + by destruct init.
Qed.

Lemma iter_lines_timeout self body msg :
  snd (HTTP.iter_lines self body) = HTTP.Raised (TimeoutError msg) →
  HTTP.ReadError HTTP.TimeoutException ∈ body.
Proof.
  induction body as [|l body IH]; simpl; [discriminate|].
  destruct l as [|m| |e]; simpl.
  - intros H. right. by apply IH.
  - destruct (HTTP.ended self) as [f|]; [|discriminate].
    destruct (f m); [discriminate|]. simpl. intros H. right. by apply IH.
  - discriminate.
  - destruct e as [| |name]; simpl.
    + by destruct (HTTP.base_url self).
    + intros _. left.
    + discriminate.
Qed.

(** X11.  Empty lines of the response body count for nothing: [send]
    yields the same messages and ends the same way on a body and on that
    body with its empty lines taken out. *)
Theorem empty_lines_are_skipped
    (self : HTTP.t) (data : Message) (w : HTTP.world) :
  HTTP.stream self data
    {| HTTP.opening := HTTP.opening w; HTTP.bad_status := HTTP.bad_status w;
       HTTP.body := non_blank (HTTP.body w) |}
  = HTTP.stream self data w.
Proof.
  unfold_stream. simpl. by rewrite iter_lines_non_blank.
Qed.

(** X12.  With a predicate, [send] yields nothing after a message the
    predicate accepts: of the messages yielded, only the last one can be
    final. *)
Theorem nothing_yielded_after_final
    (self : HTTP.t) (f : Message → bool) (data : Message) (w : HTTP.world)
    (init : list Message) (m : Message) :
  HTTP.ended self = Some f →
  HTTP.yielded (HTTP.stream self data w) = init ++ [m] →
  Forall (λ x, f x = false) init.
Proof.
  intros Hf. unfold_stream.
  destruct (HTTP.client self); [|by destruct init].
  destruct (HTTP.opening w); [by destruct init|].
  destruct (HTTP.bad_status w); [by destruct init|]. simpl.
  by apply iter_lines_final_last.
Qed.

Lemma nothing_yielded_after_final_witness :
  Forall (λ x, Sample.is_done x = false) [Sample.chunk "a"].
Proof.
  apply (nothing_yielded_after_final (Sample.http_up (Some Sample.is_done))
           Sample.is_done Sample.question
           {| HTTP.opening := None; HTTP.bad_status := false;
              HTTP.body := [HTTP.Json (Sample.chunk "a"); HTTP.Blank;
                            HTTP.Json Sample.final;
                            HTTP.Json (Sample.chunk "b")] |}
           [Sample.chunk "a"] Sample.final);
    [reflexivity | vm_compute; reflexivity].
Defined.

(** X13.  Messages decoded before a read fails have been yielded when the
    exception comes: the caller gets them, then the exception; a stream
    that times out half way is handed over in part. *)
Theorem yielded_before_read_failure
    (self : HTTP.t) (f : Message → bool) (data : Message)
    (ms : list Message) (e : HTTP.httpx_error) (rest : list HTTP.line) :
  is_Some (HTTP.client self) →
  HTTP.ended self = Some f →
  Forall (λ x, f x = false) ms →
  HTTP.stream self data
    {| HTTP.opening := None; HTTP.bad_status := false;
       HTTP.body := (HTTP.Json <$> ms) ++ HTTP.ReadError e :: rest |}
  = HTTP.Run ms (HTTP.Raised (HTTP.handle self e))
      [HTTP.Stream (HTTP.endpoint self) data].
Proof.
  intros [c Hc] Hf Hrej. unfold_stream. rewrite Hc. simpl.
  rewrite (iter_lines_rejected self f _ ms Hf Hrej). simpl.
  by rewrite app_nil_r.
Qed.

Lemma yielded_before_read_failure_witness :
  HTTP.stream (Sample.http_up (Some Sample.is_done)) Sample.question
    Sample.stalled_body
  = HTTP.Run [Sample.chunk "a"]
      (HTTP.Raised (TimeoutError "请求超时，超时时间: 30秒"))
      [HTTP.Stream "/chat" Sample.question].
Proof.
  apply (yielded_before_read_failure
           (Sample.http_up (Some Sample.is_done)) Sample.is_done
           Sample.question [Sample.chunk "a"] HTTP.TimeoutException []);
    [by eexists | reflexivity |].
  repeat constructor.
Defined.

(** X14.  A body that ends before any message satisfies the predicate is
    no error: all its messages are yielded, in order, and the generator
    ends as it does after a final message. *)
Theorem body_end_without_final_is_normal
    (self : HTTP.t) (f : Message → bool) (data : Message)
    (ms : list Message) :
  is_Some (HTTP.client self) →
  HTTP.ended self = Some f →
  Forall (λ x, f x = false) ms →
  HTTP.stream self data
    {| HTTP.opening := None; HTTP.bad_status := false;
       HTTP.body := HTTP.Json <$> ms |}
  = HTTP.Run ms HTTP.Exhausted [HTTP.Stream (HTTP.endpoint self) data].
Proof.
  intros [c Hc] Hf Hrej. unfold_stream. rewrite Hc. simpl.
  rewrite <- (app_nil_r (HTTP.Json <$> ms)).
  rewrite (iter_lines_rejected self f [] ms Hf Hrej). simpl.
  by rewrite app_nil_r.
Qed.

Lemma body_end_without_final_is_normal_witness :
  HTTP.finish
    (HTTP.stream (Sample.http_up (Some Sample.is_done)) Sample.question
       {| HTTP.opening := None; HTTP.bad_status := false;
          HTTP.body := HTTP.Json <$> [Sample.chunk "a"; Sample.chunk "b"] |})
  = HTTP.Exhausted.
Proof.
  rewrite (body_end_without_final_is_normal
             (Sample.http_up (Some Sample.is_done)) Sample.is_done
             Sample.question [Sample.chunk "a"; Sample.chunk "b"]);
    [reflexivity | by eexists | reflexivity |].
  repeat constructor.
Defined.

(** X15.  Once a message satisfies the predicate the body is read no
    further: whatever follows the final line, broken lines and failures
    included, changes nothing of what [send] yields or how it ends. *)
Theorem lines_after_final_are_not_read
    (self : HTTP.t) (f : Message → bool) (data : Message)
    (ms : list Message) (m : Message) (rest : list HTTP.line) :
  is_Some (HTTP.client self) →
  HTTP.ended self = Some f →
  Forall (λ x, f x = false) ms →
  f m = true →
  HTTP.stream self data
    {| HTTP.opening := None; HTTP.bad_status := false;
       HTTP.body := (HTTP.Json <$> ms) ++ HTTP.Json m :: rest |}
  = HTTP.Run (ms ++ [m]) HTTP.Exhausted
      [HTTP.Stream (HTTP.endpoint self) data].
Proof.
  intros [c Hc] Hf Hrej Hm. unfold_stream. rewrite Hc. simpl.
  rewrite (iter_lines_rejected self f _ ms Hf Hrej). simpl.
  by rewrite Hf, Hm.
Qed.

Lemma lines_after_final_are_not_read_witness :
  HTTP.stream (Sample.http_up (Some Sample.is_done)) Sample.question
    {| HTTP.opening := None; HTTP.bad_status := false;
       HTTP.body := (HTTP.Json <$> [Sample.chunk "a"])
                    ++ HTTP.Json Sample.final
                    :: [HTTP.Malformed;
                        HTTP.ReadError HTTP.TimeoutException] |}
  = HTTP.Run ([Sample.chunk "a"] ++ [Sample.final]) HTTP.Exhausted
      [HTTP.Stream "/chat" Sample.question].
Proof.
  apply (lines_after_final_are_not_read
           (Sample.http_up (Some Sample.is_done)) Sample.is_done
           Sample.question [Sample.chunk "a"] Sample.final
           [HTTP.Malformed; HTTP.ReadError HTTP.TimeoutException]);
    [by eexists | reflexivity | | reflexivity].
  repeat constructor.
Defined.

(** X16.  [send] raises a [TimeoutError] only when the HTTP client raised
    its timeout exception, on opening the request or on reading a line:
    no other failure is reported as a timeout. *)
Theorem timeout_only_from_client
    (self : HTTP.t) (data : Message) (w : HTTP.world) (msg : string) :
  HTTP.finish (HTTP.stream self data w) = HTTP.Raised (TimeoutError msg) →
  HTTP.opening w = Some HTTP.TimeoutException
  ∨ HTTP.ReadError HTTP.TimeoutException ∈ HTTP.body w.
Proof.
  unfold_stream. destruct (HTTP.client self); [|discriminate].
  destruct (HTTP.opening w) as [e|]; simpl.
  - destruct e as [| |name]; simpl; [|by left|discriminate].
    by destruct (HTTP.base_url self).
  - destruct (HTTP.bad_status w); [discriminate|]. simpl.
    intros H. right. by eapply iter_lines_timeout.
Qed.

Lemma timeout_only_from_client_witness :
  HTTP.opening Sample.stalled_body = Some HTTP.TimeoutException
  ∨ HTTP.ReadError HTTP.TimeoutException ∈ HTTP.body Sample.stalled_body.
Proof.
  apply (timeout_only_from_client (Sample.http_up (Some Sample.is_done))
           Sample.question Sample.stalled_body "请求超时，超时时间: 30秒").
  vm_compute. reflexivity.
Defined.

(** X17.  What the constructor checks stays true of the object through
    any number of [connect] and [close] calls: it has a server address and
    a positive timeout, the client it holds, if any, was built from those
    two, and so a connection failure is always reported as the
    [ConnectionError] naming that address. *)
Theorem built_object_keeps_its_settings (self : HTTP.t) :
  http_built self →
  ∃ u,
    HTTP.base_url self = Some u
    ∧ (0 < HTTP.timeout self)%Z
    ∧ (HTTP.client self = None
       ∨ HTTP.client self
         = Some {| HTTP.of_base_url := Some u;
                   HTTP.of_timeout := HTTP.timeout self |})
    ∧ HTTP.handle self HTTP.ConnectError
      = ConnectionError ("无法连接到服务器: " +:+ u).
Proof.
  induction 1 as [ended base_url endpoint timeout self Hinit
                 |self failure _ (u & Hu & Hpos & Hclient & Hhandle)
                 |self _ (u & Hu & Hpos & Hclient & Hhandle)].
  - unfold HTTP.init in Hinit. destruct base_url as [u|]; [|discriminate].
    destruct (timeout <=? 0)%Z eqn:Hle; [discriminate|].
    injection Hinit as <-. exists u. unfold HTTP.handle. simpl.
    apply Z.leb_gt in Hle. by auto.
  - destruct failure as [e|]; [by exists u|].
    exists u. unfold HTTP.handle in *. simpl. rewrite Hu in *.
    split; [done|]. split; [done|]. split; [by right|done].
  - exists u. unfold HTTP.close, HTTP.handle in *.
    destruct (HTTP.client self) eqn:Hc; simpl;
      (split; [done|]; split; [done|]; split; [by left|done]).
Qed.

Lemma built_object_keeps_its_settings_witness :
  ∃ u,
    HTTP.base_url (Sample.http_up None) = Some u
    ∧ (0 < HTTP.timeout (Sample.http_up None))%Z
    ∧ (HTTP.client (Sample.http_up None) = None
       ∨ HTTP.client (Sample.http_up None)
         = Some {| HTTP.of_base_url := Some u;
                   HTTP.of_timeout := HTTP.timeout (Sample.http_up None) |})
    ∧ HTTP.handle (Sample.http_up None) HTTP.ConnectError
      = ConnectionError ("无法连接到服务器: " +:+ u).
Proof.
  apply (built_object_keeps_its_settings (Sample.http_up None)).
  apply (built_connect _ None).
  apply (built_init None (Some "http://127.0.0.1:8000") "/chat" 30).
  reflexivity.
Defined.

(** ** generate_id *)

Section IdGeneratorFacts.

Import IdGenerator.

Local Abbreviation hyphen := ("-"%char) (only parsing).
Local Abbreviation keep :=
  (λ c : ascii, negb (Ascii.eqb c "-"%char)) (only parsing).

Lemma hex_is_no_hyphen c : is_hex c = true → keep c = true.
Proof. destruct c as [[] [] [] [] [] [] [] []]; vm_compute; congruence. Qed.

Lemma upper_char_hyphen c : keep (upper_char c) = keep c.
Proof. by destruct c as [[] [] [] [] [] [] [] []]. Qed.

(** On the characters of a UUID text [upper_char] can be undone. *)
Lemma upper_char_undone :
  ∃ g : ascii → ascii,
    ∀ c, is_hex c = true ∨ c = hyphen → g (upper_char c) = c.
Proof.
  exists (λ c, let n := Ascii.N_of_ascii c in
               if ((65 <=? n) && (n <=? 90))%N then Ascii.ascii_of_N (n + 32)
               else c).
  intros c [Hc| ->]; [|done].
  destruct c as [[] [] [] [] [] [] [] []]; vm_compute in Hc |- *;
    congruence.
Qed.

Lemma map_upper_char_inj (l k : list ascii) :
  Forall (λ c, is_hex c = true ∨ c = hyphen) l →
  Forall (λ c, is_hex c = true ∨ c = hyphen) k →
  map upper_char l = map upper_char k → l = k.
Proof.
  destruct upper_char_undone as [g Hg].
  assert (∀ l, Forall (λ c, is_hex c = true ∨ c = hyphen) l →
               map g (map upper_char l) = l) as Hback.
  { induction 1 as [|c l' Hc _ IH]; simpl; [done|]. by rewrite Hg, IH. }
  intros Hl Hk Heq. by rewrite <- (Hback l Hl), Heq, Hback.
Qed.

Lemma filter_keep_hex l :
  Forall (λ x, is_hex x = true) l → List.filter keep l = l.
Proof.
  induction 1 as [|c l Hc _ IH]; simpl; [done|].
  by rewrite (hex_is_no_hyphen c Hc), IH.
Qed.

Lemma filter_keep_upper l :
  List.filter keep (map upper_char l) = map upper_char (List.filter keep l).
Proof.
  induction l as [|c l IH]; simpl; [done|].
  rewrite upper_char_hyphen. destruct (keep c); simpl; by rewrite IH.
Qed.

Lemma string_length_of_list l :
  String.length (String.string_of_list_ascii l) = length l.
Proof. induction l as [|c l IH]; simpl; [done|]. by rewrite IH. Qed.

(** What is left of a UUID text once the hyphens are out. *)
Lemma uuid_text_digits u a b c d e :
  String.list_ascii_of_string u
    = a ++ hyphen :: b ++ hyphen :: c ++ hyphen :: d ++ hyphen :: e →
  Forall (λ x, is_hex x = true) (a ++ b ++ c ++ d ++ e) →
  List.filter keep (String.list_ascii_of_string u) = a ++ b ++ c ++ d ++ e.
Proof.
  intros -> Hhex.
  apply Forall_app in Hhex as [Ha Hhex].
  apply Forall_app in Hhex as [Hb Hhex].
  apply Forall_app in Hhex as [Hc Hhex].
  apply Forall_app in Hhex as [Hd He].
  repeat (rewrite List.filter_app; simpl).
  by rewrite !filter_keep_hex.
Qed.

Lemma uuid_text_chars u :
  uuid_text u →
  Forall (λ c, is_hex c = true ∨ c = hyphen) (String.list_ascii_of_string u).
Proof.
  intros (a & b & c & d & e & -> & _ & _ & _ & _ & _ & Hhex).
  apply Forall_app in Hhex as [Ha Hhex].
  apply Forall_app in Hhex as [Hb Hhex].
  apply Forall_app in Hhex as [Hc Hhex].
  apply Forall_app in Hhex as [Hd He].
  assert (∀ l, Forall (λ x, is_hex x = true) l →
               Forall (λ x, is_hex x = true ∨ x = hyphen) l) as Hweak.
  { intros l Hl. eapply Forall_impl; [exact Hl|]. intros x Hx. by left. }
  repeat (apply Forall_app_2 || apply Forall_cons_2);
    try (by right); by apply Hweak.
Qed.

End IdGeneratorFacts.

Section IdGeneratorProperties.

Import IdGenerator.

Lemma sample_uuid_text : uuid_text "550e8400-e29b-41d4-a716-446655440000".
Proof.
  exists (String.list_ascii_of_string "550e8400"),
         (String.list_ascii_of_string "e29b"),
         (String.list_ascii_of_string "41d4"),
         (String.list_ascii_of_string "a716"),
         (String.list_ascii_of_string "446655440000").
  repeat split; try reflexivity. simpl. repeat constructor.
Qed.

Lemma string_length_as_list s :
  String.length s = length (String.list_ascii_of_string s).
Proof.
  rewrite <- (String.string_of_list_ascii_of_string s) at 1.
  apply string_length_of_list.
Qed.

Lemma list_of_generate_id with_hyphen uppercase u :
  String.list_ascii_of_string (generate_id with_hyphen uppercase u)
  = (if uppercase then map upper_char else id)
      ((if with_hyphen then id
        else List.filter (λ c : ascii, negb (Ascii.eqb c "-"%char)))
         (String.list_ascii_of_string u)).
Proof.
  unfold generate_id, upper, remove_hyphens.
  destruct with_hyphen, uppercase; simpl;
    by rewrite ?String.list_ascii_of_string_of_list_ascii.
Qed.

(** X18.  From the text of a UUID, [generate_id] gives 36 characters with
    hyphens and 32 without, in either letter case, and the text without
    hyphens has indeed none. *)
Theorem generate_id_shape (uppercase : bool) (u : string) :
  uuid_text u →
  String.length (generate_id true uppercase u) = 36
  ∧ String.length (generate_id false uppercase u) = 32
  ∧ "-"%char ∉ String.list_ascii_of_string (generate_id false uppercase u).
Proof.
  intros (a & b & c & d & e & Hu & Ha & Hb & Hc & Hd & He & Hhex).
  pose proof (uuid_text_digits u a b c d e Hu Hhex) as Hdigits.
  rewrite !string_length_as_list, !list_of_generate_id. simpl.
  rewrite Hdigits. split; [|split].
  - rewrite Hu. destruct uppercase; simpl;
      rewrite ?length_map, !length_app; simpl; rewrite !length_app; simpl;
      rewrite !length_app; simpl; rewrite ?length_app; simpl; lia.
  - destruct uppercase; simpl; rewrite ?length_map, !length_app; lia.
  - rewrite <- Hdigits. intros Hin.
    assert ("-"%char ∈ List.filter (λ c : ascii, negb (Ascii.eqb c "-"%char))
                         (String.list_ascii_of_string u)) as Hin'.
    { destruct uppercase; simpl in Hin; [|done].
      rewrite <- filter_keep_upper in Hin.
      apply list_elem_of_In, List.filter_In in Hin as [_ Hkeep].
      by vm_compute in Hkeep. }
    apply list_elem_of_In, List.filter_In in Hin' as [_ Hkeep].
    by vm_compute in Hkeep.
Qed.

Lemma generate_id_shape_witness :
  String.length
    (generate_id false true "550e8400-e29b-41d4-a716-446655440000") = 32.
Proof.
  apply (generate_id_shape true "550e8400-e29b-41d4-a716-446655440000").
  apply sample_uuid_text.
Defined.

(** X19.  Whatever the two options, [generate_id] sends different UUIDs
    to different texts: taking the hyphens out and changing the letter
    case loses nothing. *)
Theorem generate_id_injective
    (with_hyphen uppercase : bool) (u1 u2 : string) :
  uuid_text u1 → uuid_text u2 →
  generate_id with_hyphen uppercase u1 = generate_id with_hyphen uppercase u2 →
  u1 = u2.
Proof.
  intros H1 H2 Heq.
  apply (f_equal String.list_ascii_of_string) in Heq.
  rewrite !list_of_generate_id in Heq.
  rewrite <- (String.string_of_list_ascii_of_string u1),
          <- (String.string_of_list_ascii_of_string u2).
  f_equal.
  pose proof (uuid_text_chars u1 H1) as Hc1.
  pose proof (uuid_text_chars u2 H2) as Hc2.
  destruct with_hyphen; simpl in Heq.
  - destruct uppercase; simpl in Heq; [|done].
    by apply map_upper_char_inj.
  - destruct H1 as (a1 & b1 & c1 & d1 & e1 & Hu1 & ? & ? & ? & ? & ? & Hx1).
    destruct H2 as (a2 & b2 & c2 & d2 & e2 & Hu2 & ? & ? & ? & ? & ? & Hx2).
    rewrite (uuid_text_digits u1 a1 b1 c1 d1 e1 Hu1 Hx1),
            (uuid_text_digits u2 a2 b2 c2 d2 e2 Hu2 Hx2) in Heq.
    assert (a1 ++ b1 ++ c1 ++ d1 ++ e1 = a2 ++ b2 ++ c2 ++ d2 ++ e2)
      as Hdigits.
    { destruct uppercase; simpl in Heq; [|done].
      apply map_upper_char_inj; [| |done];
        (eapply Forall_impl; [eassumption|]; intros; by left). }
    apply app_inj_1 in Hdigits as [-> Hdigits]; [|congruence].
    apply app_inj_1 in Hdigits as [-> Hdigits]; [|congruence].
    apply app_inj_1 in Hdigits as [-> Hdigits]; [|congruence].
    apply app_inj_1 in Hdigits as [-> ->]; [|congruence].
    by rewrite Hu1, Hu2.
Qed.

Lemma generate_id_injective_witness :
  "550e8400-e29b-41d4-a716-446655440000"
  = "550e8400-e29b-41d4-a716-446655440000".
Proof.
  apply (generate_id_injective false true
           "550e8400-e29b-41d4-a716-446655440000"
           "550e8400-e29b-41d4-a716-446655440000");
    [apply sample_uuid_text | apply sample_uuid_text | reflexivity].
Defined.

(** X20.  The two options do not get in each other's way: for the text
    of a UUID, the upper-case text without hyphens is the upper-case text
    with its hyphens taken out. *)
Theorem generate_id_options_commute (u : string) :
  uuid_text u →
  generate_id false true u = remove_hyphens (generate_id true true u).
Proof.
  intros _. unfold generate_id, upper, remove_hyphens. simpl.
  rewrite !String.list_ascii_of_string_of_list_ascii.
  by rewrite filter_keep_upper.
Qed.

Lemma generate_id_options_commute_witness :
  generate_id false true "550e8400-e29b-41d4-a716-446655440000"
  = "550E8400E29B41D4A716446655440000".
Proof.
  rewrite (generate_id_options_commute
             "550e8400-e29b-41d4-a716-446655440000" sample_uuid_text).
  vm_compute. reflexivity.
Defined.

End IdGeneratorProperties.

(** ** The connection handler of the WebSocket server *)

Section WebSocketServerFacts.

Import WebSocketServer.

Lemma receive_calls self websocket closing : ∀ msgs,
  Forall (λ c, ∃ message, c = OnMessage websocket message)
    (snd (receive self websocket msgs closing)).
Proof.
  induction msgs as [|message msgs IH]; simpl; [by constructor|].
  destruct (_on_message_callback self) as [callback|]; [|done].
  destruct (callback websocket message); simpl.
  - constructor; [by eexists|by constructor].
  - constructor; [by eexists|done].
Qed.

Lemma serve_calls self websocket w :
  Forall (λ c, c ≠ OnDisconnect websocket) (snd (serve self websocket w)).
Proof.
  assert (Forall (λ c, c ≠ OnDisconnect websocket)
            (snd (receive self websocket (incoming w) (closing w)))) as Hr.
  { eapply Forall_impl; [apply receive_calls|]. by intros c [m ->]. }
  unfold serve. destruct (_on_connect_callback self) as [callback|]; [|done].
  destruct (callback websocket); simpl.
  - by repeat constructor.
  - by constructor.
Qed.

(** The loop hands the messages to the callback in order and stops at the
    first one on which the callback raises. *)
Lemma receive_until_failure self websocket callback closing e message after :
  ∀ before,
  _on_message_callback self = Some callback →
  Forall (λ m, callback websocket m = None) before →
  callback websocket message = Some e →
  receive self websocket (before ++ message :: after) closing
  = (Some e, OnMessage websocket <$> before ++ [message]).
Proof.
  intros before Hcb Hbefore Hfail.
  induction Hbefore as [|m before Hm _ IH]; simpl; rewrite Hcb.
  - by rewrite Hfail.
  - rewrite Hm. simpl in IH. by rewrite IH.
Qed.

End WebSocketServerFacts.

(** X21.  However a connection goes (callbacks raising or not, a clean
    close or a broken one), after [_handler] the socket is out of
    [clients] and the other members are as before. *)
Theorem handler_forgets_the_socket
    (self : WebSocketServer.t) (websocket : WebSocketServer.socket)
    (w : WebSocketServer.world) :
  WebSocketServer.clients (post (WebSocketServer._handler self websocket w))
  = WebSocketServer.clients self ∖ {[websocket]}.
Proof.
  assert (({[websocket]} ∪ WebSocketServer.clients self) ∖ {[websocket]}
          = WebSocketServer.clients self ∖ {[websocket]}) as Hout.
  { apply set_eq. intros x.
    rewrite !elem_of_difference, elem_of_union. tauto. }
  unfold WebSocketServer._handler. simpl.
  by destruct (WebSocketServer._on_disconnect_callback self) as [callback|];
    [destruct (callback websocket)|].
Qed.

(** X22.  When a disconnect callback is set, [_handler] calls it exactly
    once, as its last call, however the connection went. *)
Theorem disconnect_callback_runs_last
    (self : WebSocketServer.t) (websocket : WebSocketServer.socket)
    (w : WebSocketServer.world)
    (callback : WebSocketServer.socket → option exn) :
  WebSocketServer._on_disconnect_callback self = Some callback →
  ∃ earlier,
    calls (WebSocketServer._handler self websocket w)
    = earlier ++ [WebSocketServer.OnDisconnect websocket]
    ∧ Forall (λ c, c ≠ WebSocketServer.OnDisconnect websocket) earlier.
Proof.
  intros Hcb. unfold WebSocketServer._handler. simpl. rewrite Hcb.
  eexists. split.
  - by destruct (callback websocket).
  - apply serve_calls.
Qed.

Lemma disconnect_callback_runs_last_witness :
  ∃ earlier,
    calls (WebSocketServer._handler
             (WebSocketServer.set_on_disconnect
                (WebSocketServer.set_on_message
                   (WebSocketServer.init "127.0.0.1" 8765)
                   (λ _ _, Some (ValueError "bad message")))
                (λ _, None))
             7 {| WebSocketServer.incoming := ["a"; "b"];
                  WebSocketServer.closing := None |})
    = earlier ++ [WebSocketServer.OnDisconnect 7]
    ∧ Forall (λ c, c ≠ WebSocketServer.OnDisconnect 7) earlier.
Proof.
  apply (disconnect_callback_runs_last _ 7 _ (λ _, None)). reflexivity.
Defined.

(** X23.  The messages of a connection go to the message callback in the
    order they came, after the connect callback, if one is set, has
    returned.  Once the message callback raises, no later message is
    handed over; the disconnect callback, if set, still runs, and the
    exception raised is its own if it raises one, else the one of the
    message callback.  If it is the connect callback that raises, no
    message is handed over at all. *)
Theorem message_failure_ends_the_connection
    (self : WebSocketServer.t) (websocket : WebSocketServer.socket)
    (callback : WebSocketServer.socket → string → option exn)
    (before : list string) (message : string) (after : list string)
    (closing : option exn) (e : exn) :
  WebSocketServer._on_message_callback self = Some callback →
  Forall (λ m, callback websocket m = None) before →
  callback websocket message = Some e →
  let r := WebSocketServer._handler self websocket
             {| WebSocketServer.incoming := before ++ message :: after;
                WebSocketServer.closing := closing |} in
  let last_call :=
    match WebSocketServer._on_disconnect_callback self with
    | Some _ => [WebSocketServer.OnDisconnect websocket]
    | None => []
    end in
  ((∀ first, WebSocketServer._on_connect_callback self = Some first →
             first websocket = None) →
   calls r
   = match WebSocketServer._on_connect_callback self with
     | Some _ => [WebSocketServer.OnConnect websocket]
     | None => []
     end
     ++ (WebSocketServer.OnMessage websocket <$> before ++ [message])
     ++ last_call
   ∧ out r
     = match WebSocketServer._on_disconnect_callback self with
       | Some last =>
           match last websocket with
           | Some e' => Raise e'
           | None => Raise e
           end
       | None => Raise e
       end)
  ∧ (∀ first e0,
       WebSocketServer._on_connect_callback self = Some first →
       first websocket = Some e0 →
       calls r = WebSocketServer.OnConnect websocket :: last_call).
Proof.
  intros Hmessage Hbefore Hfail r last_call. split.
  - intros Hconnect. unfold r, last_call, WebSocketServer._handler,
      WebSocketServer.serve. simpl.
    destruct (WebSocketServer._on_connect_callback self) as [first|];
      [rewrite (Hconnect first eq_refl)|];
      rewrite (receive_until_failure _ websocket callback closing e message
                 after before); try done; simpl;
      destruct (WebSocketServer._on_disconnect_callback self) as [last|];
      [destruct (last websocket)| |destruct (last websocket)|]; simpl;
      by rewrite ?app_nil_r.
  - intros first e0 Hfirst Hraise. unfold r, last_call,
      WebSocketServer._handler, WebSocketServer.serve. simpl.
    rewrite Hfirst, Hraise. simpl.
    by destruct (WebSocketServer._on_disconnect_callback self) as [last|];
      [destruct (last websocket)|].
Qed.

Lemma message_failure_ends_the_connection_witness :
  calls (WebSocketServer._handler
           (WebSocketServer.set_on_disconnect
              (WebSocketServer.set_on_connect
                 (WebSocketServer.set_on_message
                    (WebSocketServer.init "127.0.0.1" 8765)
                    (λ _ m, if String.eqb m "b"
                            then Some (ValueError "bad message") else None))
                 (λ _, None))
              (λ _, None))
           7 {| WebSocketServer.incoming := ["a"] ++ "b" :: ["c"];
                WebSocketServer.closing := None |})
  = [WebSocketServer.OnConnect 7; WebSocketServer.OnMessage 7 "a";
     WebSocketServer.OnMessage 7 "b"; WebSocketServer.OnDisconnect 7].
Proof.
  destruct (message_failure_ends_the_connection
              (WebSocketServer.set_on_disconnect
                 (WebSocketServer.set_on_connect
                    (WebSocketServer.set_on_message
                       (WebSocketServer.init "127.0.0.1" 8765)
                       (λ _ m, if String.eqb m "b"
                               then Some (ValueError "bad message")
                               else None))
                    (λ _, None))
                 (λ _, None))
              7
              (λ _ m, if String.eqb m "b"
                      then Some (ValueError "bad message") else None)
              ["a"] "b" ["c"] None (ValueError "bad message"))
    as [Hcalls _]; [reflexivity | repeat constructor | reflexivity |].
  destruct Hcalls as [Hcalls _]; [by intros first [= <-]|].
  exact Hcalls.
Defined.

(** ** The request hooks and the run control of the HTTP server *)

Section HTTPServerFacts.

Import HTTPServer.

Context {Request Response : Type}.

Lemma run_before_returns (hooks : list (before_hook Request)) :
  Forall before_returns hooks →
  ∀ request,
    ∃ request',
      run_before hooks request
      = (inr request', Before ∘ before_name <$> hooks).
Proof.
  induction 1 as [|hook hooks Hhook _ IH]; intros request; simpl.
  - by eexists.
  - destruct (Hhook request) as [request1 ->].
    destruct (IH request1) as [request' ->]. by eexists.
Qed.

Lemma run_after_returns (hooks : list (after_hook Request Response)) :
  Forall after_returns hooks →
  ∀ request response,
    ∃ response',
      run_after hooks request response
      = (inr response', After ∘ after_name <$> hooks).
Proof.
  induction 1 as [|hook hooks Hhook _ IH]; intros request response; simpl.
  - by eexists.
  - destruct (Hhook request response) as [[request1 response1] ->].
    destruct (IH request1 response1) as [response' ->]. by eexists.
Qed.


End HTTPServerFacts.

(** X24.  Hooks run in the order they were registered, the handler
    between the two kinds: with a new hook of each kind registered through
    the decorators and no hook raising, the calls of a request are the
    earlier before-hooks, the new one, the handler, the earlier
    after-hooks, the new one; and the request is answered. *)
Theorem hooks_run_in_registration_order
    {Request Response : Type}
    (self : HTTPServer.t Request Response)
    (b : HTTPServer.before_hook Request)
    (a : HTTPServer.after_hook Request Response)
    (request : Request)
    (call_next : Request → exn + Request * Response) :
  Forall HTTPServer.before_returns
    (HTTPServer._before_request_hooks self ++ [b]) →
  Forall HTTPServer.after_returns
    (HTTPServer._after_request_hooks self ++ [a]) →
  (∀ r, ∃ answer, call_next r = inr answer) →
  let registered :=
    snd (HTTPServer.after_request
           (snd (HTTPServer.before_request self b)) a) in
  snd (HTTPServer.hooks_middleware registered request call_next)
  = (HTTPServer.Before ∘ HTTPServer.before_name
       <$> HTTPServer._before_request_hooks self)
    ++ [HTTPServer.Before (HTTPServer.before_name b)]
    ++ [HTTPServer.Handler]
    ++ (HTTPServer.After ∘ HTTPServer.after_name
          <$> HTTPServer._after_request_hooks self)
    ++ [HTTPServer.After (HTTPServer.after_name a)]
  ∧ ∃ response,
      fst (HTTPServer.hooks_middleware registered request call_next)
      = inr response.
Proof.
  intros Hbefore Hafter Hnext registered.
  unfold HTTPServer.hooks_middleware. simpl.
  destruct (run_before_returns _ Hbefore request) as [request1 ->]. simpl.
  destruct (Hnext request1) as [[request2 response] ->].
  destruct (run_after_returns _ Hafter request2 response) as [response' ->].
  simpl. split; [|by eexists].
  rewrite !fmap_app. simpl. by rewrite <- !app_assoc.
Qed.

Lemma hooks_run_in_registration_order_witness :
  snd (HTTPServer.hooks_middleware
         (snd (HTTPServer.after_request
                 (snd (HTTPServer.before_request Sample.http_server
                         Sample.log_hook))
                 Sample.stamp_hook))
         Sample.question Sample.route)
  = [HTTPServer.Before "log_request"; HTTPServer.Handler;
     HTTPServer.After "log_response"].
Proof.
  apply (hooks_run_in_registration_order Sample.http_server Sample.log_hook
           Sample.stamp_hook Sample.question Sample.route).
  - repeat constructor. intros request. by eexists.
  - repeat constructor. intros request response. by eexists.
  - intros r. by eexists.
Defined.



(** X26.  [stop] only asks the server to exit: [is_running] stays set
    until the run itself comes back, and a [start] made before that does
    nothing but print that the server is running. *)
Theorem start_after_stop_is_refused
    {Request Response : Type}
    (self : HTTPServer.t Request Response) (block : bool)
    (run : HTTPServer.running) :
  HTTPServer.is_running self = true →
  HTTPServer.is_running (post (HTTPServer.stop self)) = true
  ∧ HTTPServer.start (post (HTTPServer.stop self)) block run
    = Result (Return RNone) (post (HTTPServer.stop self))
        [HTTPServer.Print "服务器已经在运行中"].
Proof.
  intros Hrun. unfold HTTPServer.stop. rewrite Hrun. simpl.
  destruct (HTTPServer._server self); simpl;
    unfold HTTPServer.start; simpl; by rewrite ?Hrun.
Qed.

Lemma start_after_stop_is_refused_witness :
  calls (HTTPServer.start (post (HTTPServer.stop Sample.http_server))
           false HTTPServer.Stops)
  = [HTTPServer.Print "服务器已经在运行中"].
Proof.
  destruct (start_after_stop_is_refused Sample.http_server false HTTPServer.Stops)
    as [_ Hstart]; [reflexivity|]. by rewrite Hstart.
Defined.

(** ** The model factory *)

Section AIFactoryFacts.

Import AIFactory.

Context {Params Model Callback : Type}.
Variable build : string → Params → exn + Model.
Variable token_callback : Model → Callback.
Variable max_tokens : Model → Z.

Lemma call_model_supported vendor params model :
  call_model build vendor params = inr model →
  vendor ∈ ["deepseek"; "doubao"; "kimi"; "qwen"].
Proof.
  unfold call_model.
  destruct (String.eqb_spec vendor "deepseek") as [->|_];
    [intros _; by repeat constructor|].
  destruct (String.eqb_spec vendor "doubao") as [->|_];
    [intros _; by repeat constructor|].
  destruct (String.eqb_spec vendor "kimi") as [->|_];
    [intros _; by repeat constructor|].
  destruct (String.eqb_spec vendor "qwen") as [->|_];
    [intros _; by repeat constructor|].
  by case_bool_decide.
Qed.


End AIFactoryFacts.



(** X28.  On a factory without history, [switch_model] without a system
    prompt raises its [ValueError] after the model has been replaced: the
    call fails, the factory holds the new model, and there is still no
    history. *)
Theorem switch_without_prompt_replaces_model
    {Params Model Callback : Type}
    (build : string → Params → exn + Model)
    (token_callback : Model → Callback) (max_tokens : Model → Z)
    (self : AIFactory.t) (fs : AIFactory.files Params)
    (vendor model_name : string) (params : Params) (model : Model) :
  AIFactory.history self = None →
  vendor ≠ "" → model_name ≠ "" →
  AIFactory._extract_params fs vendor model_name = inr params →
  AIFactory.call_model build vendor params = inr model →
  AIFactory.switch_model build token_callback max_tokens self fs vendor
    model_name None
  = (Some (AIFactory.ValueError "首次连接必须提供 system_prompt"),
     {| AIFactory.token := AIFactory.token self;
        AIFactory.ai := Some model;
        AIFactory.history := None |}).
Proof.
  intros Hnone Hvendor Hmodel Hparams Hbuilt. unfold AIFactory.switch_model.
  apply String.eqb_neq in Hvendor, Hmodel.
  rewrite Hvendor, Hmodel, Hparams, Hbuilt. simpl. by rewrite Hnone.
Qed.

Lemma switch_without_prompt_replaces_model_witness :
  AIFactory.switch_model Sample.build Sample.callback_of Sample.budget_of
    Sample.factory Sample.config_json "deepseek" "deepseek-chat" None
  = (Some (AIFactory.ValueError "首次连接必须提供 system_prompt"),
     {| AIFactory.token := None;
        AIFactory.ai := Some ("DeepSeek", {[ "max_tokens" := VInt 4096 ]});
        AIFactory.history := None |}).
Proof.
  apply (switch_without_prompt_replaces_model Sample.build
           Sample.callback_of Sample.budget_of Sample.factory
           Sample.config_json "deepseek" "deepseek-chat"
           {[ "max_tokens" := VInt 4096 ]}
           ("DeepSeek", {[ "max_tokens" := VInt 4096 ]}));
    try reflexivity; discriminate.
Defined.

(** X29.  [switch_model] with a vendor and a model name gets through only
    if the configuration file is there, holds parameters (not [null]) for
    that model under that vendor, and the vendor is one of the four with a
    model class; the factory then holds a model. *)
Theorem switch_needs_configured_supported_model
    {Params Model Callback : Type}
    (build : string → Params → exn + Model)
    (token_callback : Model → Callback) (max_tokens : Model → Z)
    (self : AIFactory.t) (fs : AIFactory.files Params)
    (vendor model_name : string) (prompt : option string) :
  vendor ≠ "" → model_name ≠ "" →
  fst (AIFactory.switch_model build token_callback max_tokens self fs vendor
         model_name prompt) = None →
  AIFactory.config_exists fs = true
  ∧ (∃ models params,
       AIFactory.config fs !! vendor = Some (AIFactory.Models models)
       ∧ models !! model_name = Some (Some params))
  ∧ vendor ∈ ["deepseek"; "doubao"; "kimi"; "qwen"]
  ∧ is_Some (AIFactory.ai
               (snd (AIFactory.switch_model build token_callback max_tokens
                       self fs vendor model_name prompt))).
Proof.
  intros Hvendor Hmodel. unfold AIFactory.switch_model.
  apply String.eqb_neq in Hvendor, Hmodel. rewrite Hvendor, Hmodel. simpl.
  destruct (AIFactory._extract_params fs vendor model_name)
    as [e|params] eqn:Hparams; [discriminate|].
  destruct (AIFactory.call_model build vendor params)
    as [e|model] eqn:Hbuilt; [discriminate|].
  simpl. intros Hok.
  unfold AIFactory._extract_params in Hparams.
  destruct (AIFactory.config_exists fs); [|discriminate]. simpl in Hparams.
  destruct (AIFactory.config fs !! vendor) as [[|models]|] eqn:Hentry;
    [discriminate| |discriminate].
  destruct (models !! model_name) as [[p|]|] eqn:Hp; [|discriminate..].
  split; [done|]. split; [by eauto|].
  split; [by eapply call_model_supported|].
  destruct (AIFactory.history self); [by eexists|].
  destruct prompt; by eexists.
Qed.

Lemma switch_needs_configured_supported_model_witness :
  "deepseek" ∈ ["deepseek"; "doubao"; "kimi"; "qwen"].
Proof.
  apply (switch_needs_configured_supported_model Sample.build
           Sample.callback_of Sample.budget_of Sample.factory
           Sample.config_json "deepseek" "deepseek-chat" (Some "你是助手"));
    [discriminate | discriminate | vm_compute; reflexivity].
Defined.
